(** * go-phase-manager: the [phaser] package

    A shallow embedding of [phaser.go] (the [Phase] struct, its [run],
    [handleError], [processHooks] and the hook-attachment methods) and of the
    fixtures of [phase_test.go], followed by the properties of the hook chains
    and of [run].

    Modelling decisions.
    - [interface{}] is a tagged union of the dynamic types that occur in the
      package and its tests (nil, int, string, struct{}).
    - [int] is a two's complement integer of [intSize] bits (32 or 64 in Go,
      depending on the target); arithmetic wraps around.
    - [error] is [nil] or an error value.
    - A func value is [nil] or a closure.  A closure may read and write state
      of its own (type [W], the "world") and may panic; calling a [nil] func
      panics.  Non-termination of a closure is not modelled.
    - A slice is a header (backing array, first cell, length, capacity) over
      a heap of backing arrays ([Mem]); [append] writes in place while the
      capacity lasts and allocates a larger array otherwise, so two slices
      over one array can see each other's writes.  The four attachment
      methods are modelled on this memory.  [processHooks] and [run] only read
      the chains: they are modelled on the contents of the slices (the record
      [Phase]), and a Phase is not mutated by its own hooks while it runs.
    - Every call that [run] and [processHooks] make through a func value is
      recorded in a call log, which the closures cannot see; the log is what
      "hook h is (never) invoked" refers to. *)

From Stdlib Require Import ZArith List String Lia Bool.
Import ListNotations.
Local Open Scope Z_scope.

(* ================================================================== *)
(** ** Go's [int] *)
(* ================================================================== *)

Module GoInt.

Definition minInt (intSize : Z) : Z := - 2 ^ (intSize - 1).
Definition maxInt (intSize : Z) : Z := 2 ^ (intSize - 1) - 1.

(** The representative of [z] modulo [2^intSize] in [minInt .. maxInt]. *)
Definition wrap (intSize : Z) (z : Z) : Z :=
  (z - minInt intSize) mod 2 ^ intSize + minInt intSize.

Definition add (intSize : Z) (a b : Z) : Z := wrap intSize (a + b).
Definition mul (intSize : Z) (a b : Z) : Z := wrap intSize (a * b).

(** [a / b]: truncated towards zero; [None] is the run-time panic of a
    division by zero. *)
Definition quo (intSize : Z) (a b : Z) : option Z :=
  if b =? 0 then None else Some (wrap intSize (a ÷ b)).

End GoInt.

(* ================================================================== *)
(** ** Values, errors, panics *)
(* ================================================================== *)

(** [interface{}] *)
Inductive Value : Type :=
| VNil
| VInt (n : Z)
| VString (s : string)
| VStruct.

(** A non-nil [error]: [errors.New(msg)]. *)
Inductive errorValue : Type :=
| ErrorString (msg : string).

(** [error]: [None] is [nil]. *)
Definition error : Type := option errorValue.

(** testify's [assert.AnError]. *)
Definition AnError : errorValue :=
  ErrorString "assert.AnError general error for testing".

Inductive panicValue : Type :=
| PanicString (msg : string)     (* panic(fmt.Sprintf(...)) *)
| NilDereference                 (* call of a nil func value *)
| TypeAssertion (v : Value)      (* v.(int) on a value that is not an int *)
| DivideByZero.

Inductive outcome (A : Type) : Type :=
| Returns (a : A)
| Panics (pv : panicValue).
Arguments Returns {A} a.
Arguments Panics {A} pv.

Definition isPanic {A : Type} (o : outcome A) : bool :=
  match o with
  | Panics _ => true
  | Returns _ => false
  end.

(* ================================================================== *)
(** ** The package *)
(* ================================================================== *)

Section Model.
Context {W : Type}.

(** The body of a [func(value interface{}) (interface{}, error)]. *)
Definition funcBody : Type := Value -> W -> outcome (Value * error) * W.

(** [type PhaseHook func(value interface{}) (interface{}, error)];
    [None] is the nil func. *)
Definition PhaseHook : Type := option funcBody.

Inductive event : Type :=
| HookCalled (hook : PhaseHook)
| ExecuteCalled (f : PhaseHook).

Record machine : Type := Machine {
  world : W;
  calls : list event
}.

(** Computations: state passing, with panics that cut the computation. *)
Definition M (A : Type) : Type := machine -> outcome A * machine.

Definition ret {A : Type} (a : A) : M A := fun m => (Returns a, m).

Definition panic {A : Type} (pv : panicValue) : M A := fun m => (Panics pv, m).

Definition bind {A B : Type} (c : M A) (k : A -> M B) : M B :=
  fun m =>
    match c m with
    | (Returns a, m') => k a m'
    | (Panics pv, m') => (Panics pv, m')
    end.

(** [f(value)] for a func value [f]; [ev] tags the call site in the log. *)
Definition call (ev : PhaseHook -> event) (f : PhaseHook) (value : Value)
  : M (Value * error) :=
  fun m =>
    match f with
    | None => (Panics NilDereference, m)
    | Some body =>
        let (r, w) := body value (world m) in
        (r, {| world := w; calls := calls m ++ [ev f] |})
    end.

Record Phase : Type := {
  Name : string;
  preHooks : list PhaseHook;
  execute : PhaseHook;
  postHooks : list PhaseHook
}.

(** [func (p *Phase) handleError(err error) (interface{}, error)].
    [processHooks] and [run] have the receiver [p *Phase], so the handler
    they call is this method, also for a Phase embedded in another struct. *)
Definition handleError (p : Phase) (err : error) : Value * error :=
  (VNil, err).

End Model.

Arguments funcBody W : clear implicits.
Arguments PhaseHook W : clear implicits.
Arguments event W : clear implicits.
Arguments machine W : clear implicits.
Arguments Phase W : clear implicits.
Arguments M W A : clear implicits.

Declare Scope go_scope.
Delimit Scope go_scope with go.
Notation "x <- c ;; k" := (bind c (fun x => k))
  (at level 61, c at next level, right associativity) : go_scope.
Notation "' pat <- c ;; k" := (bind c (fun x => match x with pat => k end))
  (at level 61, pat pattern, c at next level, right associativity) : go_scope.

Section Methods.
Context {W : Type}.
Local Open Scope go_scope.

(** [func (p *Phase) processHooks(value interface{}, hooks *[]PhaseHook)]:
    the [for _, hook := range *hooks] loop, by recursion on the slice. *)
Fixpoint processHooks (p : Phase W) (value : Value) (hooks : list (PhaseHook W))
  : M W (Value * error) :=
  match hooks with
  | [] => ret (value, None)
  | hook :: rest =>
      '(value, err) <- call HookCalled hook value ;;
      match err with
      | Some _ => ret (handleError p err)
      | None => processHooks p value rest
      end
  end.

(** [func (p *Phase) run(value interface{}) (interface{}, error)] *)
Definition run (p : Phase W) (value : Value) : M W (Value * error) :=
  '(value, err) <- processHooks p value (preHooks p) ;;
  match err with
  | Some _ => ret (value, err)
  | None =>
      match execute p with
      | None => panic (PanicString ("phase " ++ Name p ++ " not implemented"))
      | Some _ =>
          '(value, err) <- call ExecuteCalled (execute p) value ;;
          match err with
          | Some _ => ret (handleError p err)
          | None =>
              '(value, err) <- processHooks p value (postHooks p) ;;
              match err with
              | Some _ => ret (value, err)
              | None => ret (value, None)
              end
          end
      end
  end.

(** The elements of [append([]PhaseHook{newHook}, *hooks...)], from the
    elements of [*hooks]. *)
Definition prependHook (hooks : list (PhaseHook W)) (newHook : PhaseHook W)
  : list (PhaseHook W) :=
  [newHook] ++ hooks.

(** The elements of the slice [hooks] points to, with [newHook] appended:
    the elements of the slice that is stored back through [hooks]. *)
Definition appendHook (hooks : list (PhaseHook W)) (newHook : PhaseHook W)
  : list (PhaseHook W) :=
  hooks ++ [newHook].

(** [p.prependHook(&p.preHooks, hook)], on the contents of the Phase.
    prependHook builds its result in a new backing array, so the contents of
    the other chain are the same after the call, whatever the two chains
    share ([prependPreHook_contents] below). *)
Definition prependPreHook (p : Phase W) (hook : PhaseHook W) : Phase W :=
  {| Name := Name p;
     preHooks := prependHook (preHooks p) hook;
     execute := execute p;
     postHooks := postHooks p |}.

(** [p.prependHook(&p.postHooks, hook)], on the contents of the Phase. *)
Definition prependPostHook (p : Phase W) (hook : PhaseHook W) : Phase W :=
  {| Name := Name p;
     preHooks := preHooks p;
     execute := execute p;
     postHooks := prependHook (postHooks p) hook |}.

End Methods.

(* ================================================================== *)
(** ** Slices in memory and the attachment methods *)
(* ================================================================== *)

Module Mem.
Section Memory.
Context {W : Type}.

(** A slice header: a pointer to a cell of a backing array (the array and
    the index of the cell), a length and a capacity. *)
Record slice : Type := {
  base : nat;
  offset : nat;
  len : nat;
  cap : nat
}.

(** The backing arrays, in the order of their allocation.  A cell that was
    never written holds the zero value of PhaseHook, the nil func. *)
Definition heap : Type := list (list (PhaseHook W)).

(** The nil slice, the zero value of a slice. *)
Definition nilSlice : slice := {| base := 0; offset := 0; len := 0; cap := 0 |}.

Definition cells (h : heap) (a : nat) : list (PhaseHook W) := nth a h [].

(** [s[0], ..., s[len(s)-1]]: what a range loop over [s] visits. *)
Definition elements (h : heap) (s : slice) : list (PhaseHook W) :=
  firstn (len s) (skipn (offset s) (cells h (base s))).

(** [l[i] = x]; a list has no cell outside its length. *)
Fixpoint setNth {A : Type} (l : list A) (i : nat) (x : A) : list A :=
  match l, i with
  | [], _ => []
  | _ :: l', O => x :: l'
  | y :: l', S i' => y :: setNth l' i' x
  end.

(** [xs] copied into the cells [i], [i+1], ... of an array. *)
Fixpoint writeCells (c : list (PhaseHook W)) (i : nat) (xs : list (PhaseHook W))
  : list (PhaseHook W) :=
  match xs with
  | [] => c
  | x :: xs' => writeCells (setNth c i x) (S i) xs'
  end.

Definition store (h : heap) (a i : nat) (xs : list (PhaseHook W)) : heap :=
  setNth h a (writeCells (cells h a) i xs).

(** The capacity the run time picks when a slice has to grow, from the old
    capacity and the length needed.  Go leaves it to the implementation; it
    is never less than the length needed, which [append] below enforces. *)
Variable growCap : nat -> nat -> nat.

(** [append(s, xs...)]: when the capacity suffices, [xs] is written into the
    backing array of [s], behind its elements; otherwise a new array is
    allocated and receives the elements of [s] and [xs]. *)
Definition append (h : heap) (s : slice) (xs : list (PhaseHook W)) : heap * slice :=
  let n := (len s + List.length xs)%nat in
  if (n <=? cap s)%nat then
    (store h (base s) (offset s + len s) xs,
     {| base := base s; offset := offset s; len := n; cap := cap s |})
  else
    let newCap := Nat.max n (growCap (cap s) n) in
    (h ++ [elements h s ++ xs ++ repeat None (newCap - n)],
     {| base := List.length h; offset := 0; len := n; cap := newCap |}).

(** [[]PhaseHook{x1, ..., xn}]: a new array holding exactly the elements. *)
Definition sliceLiteral (h : heap) (xs : list (PhaseHook W)) : heap * slice :=
  (h ++ [xs],
   {| base := List.length h; offset := 0;
      len := List.length xs; cap := List.length xs |}).

(** [func (p *Phase) prependHook(hooks *[]PhaseHook, newHook PhaseHook)]:
    the heap and the slice stored through [hooks]. *)
Definition prependHook (h : heap) (hooks : slice) (newHook : PhaseHook W)
  : heap * slice :=
  let (h1, literal) := sliceLiteral h [newHook] in
  append h1 literal (elements h1 hooks).

(** [func (p *Phase) appendHook(hooks *[]PhaseHook, newHook PhaseHook)] *)
Definition appendHook (h : heap) (hooks : slice) (newHook : PhaseHook W)
  : heap * slice :=
  append h hooks [newHook].

(** The contents of a Phase, as [processHooks] and [run] read them. *)
Definition contents (name : string) (pre : list (PhaseHook W))
    (exec : PhaseHook W) (post : list (PhaseHook W)) : Phase W :=
  {| Name := name; preHooks := pre; execute := exec; postHooks := post |}.

(** [type Phase struct], as it lies in memory: the chains are slice
    headers. *)
Record Phase : Type := {
  Name : string;
  preHooks : slice;
  execute : PhaseHook W;
  postHooks : slice
}.

Definition view (hp : heap * Phase) :=
  contents (Name (snd hp))
    (elements (fst hp) (preHooks (snd hp)))
    (execute (snd hp))
    (elements (fst hp) (postHooks (snd hp))).

(** [Phase{}], in a memory without arrays. *)
Definition zero : heap * Phase :=
  ([], {| Name := ""; preHooks := nilSlice; execute := None;
          postHooks := nilSlice |}).

(** [func (p *Phase) prependPreHook(hook PhaseHook)] *)
Definition prependPreHook (hp : heap * Phase) (hook : PhaseHook W) : heap * Phase :=
  let (h', hooks) := prependHook (fst hp) (preHooks (snd hp)) hook in
  (h', {| Name := Name (snd hp);
          preHooks := hooks;
          execute := execute (snd hp);
          postHooks := postHooks (snd hp) |}).

(** [func (p *Phase) appendPreHook(hook PhaseHook)] *)
Definition appendPreHook (hp : heap * Phase) (hook : PhaseHook W) : heap * Phase :=
  let (h', hooks) := appendHook (fst hp) (preHooks (snd hp)) hook in
  (h', {| Name := Name (snd hp);
          preHooks := hooks;
          execute := execute (snd hp);
          postHooks := postHooks (snd hp) |}).

(** [func (p *Phase) appendPostHook(hook PhaseHook)] *)
Definition appendPostHook (hp : heap * Phase) (hook : PhaseHook W) : heap * Phase :=
  let (h', hooks) := appendHook (fst hp) (postHooks (snd hp)) hook in
  (h', {| Name := Name (snd hp);
          preHooks := preHooks (snd hp);
          execute := execute (snd hp);
          postHooks := hooks |}).

(** [func (p *Phase) prependPostHook(hook PhaseHook)] *)
Definition prependPostHook (hp : heap * Phase) (hook : PhaseHook W) : heap * Phase :=
  let (h', hooks) := prependHook (fst hp) (postHooks (snd hp)) hook in
  (h', {| Name := Name (snd hp);
          preHooks := preHooks (snd hp);
          execute := execute (snd hp);
          postHooks := hooks |}).

End Memory.

Arguments heap W : clear implicits.
Arguments Phase W : clear implicits.

End Mem.

(* ================================================================== *)
(** ** Vocabulary of the statements *)
(* ================================================================== *)

Section Vocabulary.
Context {W : Type}.

(** Every hook of [hooks], called in order on the value the previous one
    returned (the first on [value]), returns a nil error: the result is the
    last value and the world the hooks leave behind.  [None] when a hook
    is nil, panics or returns a non-nil error. *)
Fixpoint hooksPass (hooks : list (PhaseHook W)) (value : Value) (w : W)
  : option (Value * W) :=
  match hooks with
  | [] => Some (value, w)
  | Some body :: rest =>
      match body value w with
      | (Returns (value', None), w') => hooksPass rest value' w'
      | _ => None
      end
  | None :: _ => None
  end.

(** The operations that change a chain, and a chain built from the empty
    one by a sequence of them. *)
Inductive chainOp : Type :=
| OpPrepend (hook : PhaseHook W)
| OpAppend (hook : PhaseHook W).

Definition applyOp (hooks : list (PhaseHook W)) (op : chainOp)
  : list (PhaseHook W) :=
  match op with
  | OpPrepend hook => prependHook hooks hook
  | OpAppend hook => appendHook hooks hook
  end.

Definition buildChain (ops : list chainOp) : list (PhaseHook W) :=
  fold_left applyOp ops [].

(** The hooks a sequence of operations prepends, and the hooks it appends,
    each in the order of the calls. *)
Fixpoint prependedHooks (ops : list chainOp) : list (PhaseHook W) :=
  match ops with
  | [] => []
  | OpPrepend hook :: ops' => hook :: prependedHooks ops'
  | OpAppend _ :: ops' => prependedHooks ops'
  end.

Fixpoint appendedHooks (ops : list chainOp) : list (PhaseHook W) :=
  match ops with
  | [] => []
  | OpPrepend _ :: ops' => appendedHooks ops'
  | OpAppend hook :: ops' => hook :: appendedHooks ops'
  end.

(** A slice header that points into the heap: its capacity lies within
    its backing array, and its length within its capacity.  Every slice of a
    running Go program is such. *)
Definition validSlice (h : Mem.heap W) (s : Mem.slice) : Prop :=
  (Mem.len s <= Mem.cap s)%nat
  /\ (Mem.cap s = 0%nat
      \/ ((Mem.base s < List.length h)%nat
          /\ (Mem.offset s + Mem.cap s
              <= List.length (Mem.cells h (Mem.base s)))%nat)).

(** Two slices with no backing array in common. *)
Definition disjoint (s t : Mem.slice) : Prop :=
  Mem.cap s = 0%nat \/ Mem.cap t = 0%nat \/ Mem.base s <> Mem.base t.

(** A Phase in memory whose two chains are valid slices. *)
Definition wellFormed (hp : Mem.heap W * Mem.Phase W) : Prop :=
  validSlice (fst hp) (Mem.preHooks (snd hp))
  /\ validSlice (fst hp) (Mem.postHooks (snd hp)).

(** A Phase in memory whose two chains share no backing array. *)
Definition separate (hp : Mem.heap W * Mem.Phase W) : Prop :=
  disjoint (Mem.preHooks (snd hp)) (Mem.postHooks (snd hp)).

(** The calls of the attachment methods, and the Phase a sequence of them
    builds from [Phase{}]. *)
Inductive attachOp : Type :=
| PrependPre (hook : PhaseHook W)
| AppendPre (hook : PhaseHook W)
| PrependPost (hook : PhaseHook W)
| AppendPost (hook : PhaseHook W).

Definition attach (growCap : nat -> nat -> nat)
    (hp : Mem.heap W * Mem.Phase W) (op : attachOp) : Mem.heap W * Mem.Phase W :=
  match op with
  | PrependPre hook => Mem.prependPreHook growCap hp hook
  | AppendPre hook => Mem.appendPreHook growCap hp hook
  | PrependPost hook => Mem.prependPostHook growCap hp hook
  | AppendPost hook => Mem.appendPostHook growCap hp hook
  end.

Definition buildPhase (growCap : nat -> nat -> nat) (ops : list attachOp)
  : Mem.heap W * Mem.Phase W :=
  fold_left (attach growCap) ops Mem.zero.

(** The contents of a Phase with another pre-hook chain, or another
    post-hook chain. *)
Definition withPreHooks (p : Phase W) (hooks : list (PhaseHook W)) : Phase W :=
  {| Name := Name p; preHooks := hooks; execute := execute p;
     postHooks := postHooks p |}.

Definition withPostHooks (p : Phase W) (hooks : list (PhaseHook W)) : Phase W :=
  {| Name := Name p; preHooks := preHooks p; execute := execute p;
     postHooks := hooks |}.

(** The machine before any call, in world [w]. *)
Definition start (w : W) : machine W := {| world := w; calls := [] |}.

(** The machine [m] after the calls [evs], which leave the world [w]. *)
Definition after (m : machine W) (w : W) (evs : list (event W)) : machine W :=
  {| world := w; calls := calls m ++ evs |}.

End Vocabulary.

Arguments chainOp W : clear implicits.
Arguments attachOp W : clear implicits.

(* ================================================================== *)
(** ** The fixtures of [phase_test.go] *)
(* ================================================================== *)

Section Fixtures.
Context {W : Type}.
Variable intSize : Z.

(** [func(value interface{}) (interface{}, error) { return n, nil }]
    (TestAddPreHooks, TestAddPostHooks) *)
Definition constHook (n : Z) : funcBody W :=
  fun value w => (Returns (VInt n, None), w).

(** [return value.(int) + k, nil] (TestProcessHooksPass) *)
Definition addHook (k : Z) : funcBody W :=
  fun value w =>
    match value with
    | VInt n => (Returns (VInt (GoInt.add intSize n k), None), w)
    | _ => (Panics (TypeAssertion value), w)
    end.

(** [return value.(int) + k, assert.AnError] (TestProcessHooksFail) *)
Definition addFailHook (k : Z) : funcBody W :=
  fun value w =>
    match value with
    | VInt n => (Returns (VInt (GoInt.add intSize n k), Some AnError), w)
    | _ => (Panics (TypeAssertion value), w)
    end.

Definition passHooks : list (PhaseHook W) :=
  [Some (addHook 1); Some (addHook 2); Some (addHook 3)].

Definition failHooks : list (PhaseHook W) :=
  [Some (addHook 1); Some (addFailHook 2); Some (addHook 3)].

(** [Phase{}] *)
Definition zeroPhase : Phase W :=
  {| Name := ""; preHooks := []; execute := None; postHooks := [] |}.

(** [return value, nil] (TestTestPhaseExecute) *)
Definition identityExecute : funcBody W :=
  fun value w => (Returns (value, None), w).

(** [return value.(int) * 2, nil] (TestTestPhaseRun) *)
Definition doubleHook : funcBody W :=
  fun value w =>
    match value with
    | VInt n => (Returns (VInt (GoInt.mul intSize n 2), None), w)
    | _ => (Panics (TypeAssertion value), w)
    end.

(** [var err error; if value.(int) != expected { err = assert.AnError };
    return value, err] (TestTestPhaseRun) *)
Definition checkHook (expected : Z) : funcBody W :=
  fun value w =>
    match value with
    | VInt n =>
        (Returns (value, if negb (n =? expected) then Some AnError else None), w)
    | _ => (Panics (TypeAssertion value), w)
    end.

(** [return value.(int) / 2, nil] (TestTestPhaseRun) *)
Definition halveHook : funcBody W :=
  fun value w =>
    match value with
    | VInt n =>
        match GoInt.quo intSize n 2 with
        | Some q => (Returns (VInt q, None), w)
        | None => (Panics DivideByZero, w)
        end
    | _ => (Panics (TypeAssertion value), w)
    end.

(** The Phase of TestTestPhaseRun; [val] is the variable its closures
    capture, and the test runs the Phase on [val]. *)
Definition testPhase (val : Z) : Phase W :=
  {| Name := "";
     preHooks := [Some doubleHook; Some (checkHook (GoInt.mul intSize val 2))];
     execute := Some (checkHook (GoInt.mul intSize val 2));
     postHooks := [Some (checkHook (GoInt.mul intSize val 2));
                   Some halveHook;
                   Some (checkHook val)] |}.

(** A Phase assembled from the hooks of TestProcessHooksFail: the failing
    one is its execute function. *)
Definition failingExecutePhase : Phase W :=
  {| Name := "";
     preHooks := [Some (addHook 1)];
     execute := Some (addFailHook 2);
     postHooks := [Some (addHook 3)] |}.

(** A Phase assembled from the hooks of TestProcessHooksPass, on both
    chains, and the execute of TestTestPhaseExecute. *)
Definition sumPhase : Phase W :=
  {| Name := "sum";
     preHooks := passHooks;
     execute := Some identityExecute;
     postHooks := passHooks |}.

(** A Phase with the hooks of TestProcessHooksFail as post-hooks. *)
Definition failingPostPhase : Phase W :=
  {| Name := "";
     preHooks := [];
     execute := Some identityExecute;
     postHooks := failHooks |}.

(** A Phase whose execute asserts an int: it panics on any other value. *)
Definition addExecutePhase : Phase W :=
  {| Name := "";
     preHooks := [];
     execute := Some (addHook 1);
     postHooks := passHooks |}.

(** A chain holding a nil func between two hooks. *)
Definition nilHookChain : list (PhaseHook W) :=
  [Some (addHook 1); None; Some (addHook 3)].

(** A growth policy: twice the old capacity. *)
Definition doubleCap (oldCap needed : nat) : nat := (2 * oldCap)%nat.

(** [s := make([]PhaseHook, 0, 4); Phase{preHooks: s, postHooks: s}]: the
    two chains are the same empty slice of capacity 4. *)
Definition sharedPhase : Mem.heap W * Mem.Phase W :=
  ([[None; None; None; None]],
   {| Mem.Name := "";
      Mem.preHooks := {| Mem.base := 0; Mem.offset := 0; Mem.len := 0; Mem.cap := 4 |};
      Mem.execute := None;
      Mem.postHooks := {| Mem.base := 0; Mem.offset := 0; Mem.len := 0; Mem.cap := 4 |} |}).

(** A Phase whose chains hold one hook each, in arrays of their own with one
    spare cell: [pre := make([]PhaseHook, 1, 2)], [post] likewise. *)
Definition roomyPhase : Mem.heap W * Mem.Phase W :=
  ([[Some (constHook 1); None]; [Some (constHook 2); None]],
   {| Mem.Name := "";
      Mem.preHooks := {| Mem.base := 0; Mem.offset := 0; Mem.len := 1; Mem.cap := 2 |};
      Mem.execute := Some identityExecute;
      Mem.postHooks := {| Mem.base := 1; Mem.offset := 0; Mem.len := 1; Mem.cap := 2 |} |}).

(** A Phase that was given the hooks of TestProcessHooksFail as pre-hooks
    and no execute function. *)
Definition failingPrePhase : Phase W :=
  {| Name := ""; preHooks := failHooks; execute := None; postHooks := [] |}.

End Fixtures.


(* ================================================================== *)
(** ** Properties of the hook chains *)
(* ================================================================== *)

Section ChainProperties.
Context {W : Type}.
Implicit Types (p : Phase W) (hooks pre rest : list (PhaseHook W)).
Implicit Types (m : machine W) (body : funcBody W).

Lemma after_nil m : after m (world m) [] = m.
Proof. destruct m as [w cs]. unfold after. simpl. now rewrite app_nil_r. Qed.

Lemma after_after m w1 w2 evs1 evs2 :
  after (after m w1 evs1) w2 evs2 = after m w2 (evs1 ++ evs2).
Proof. unfold after. simpl. now rewrite app_assoc. Qed.

Lemma call_body ev body value m :
  call ev (Some body) value m =
    (fst (body value (world m)),
     after m (snd (body value (world m))) [ev (Some body)]).
Proof. unfold call, after. now destruct (body value (world m)). Qed.

Lemma processHooks_cons p body rest value m :
  processHooks p value (@cons (PhaseHook W) (Some body) rest) m =
    match body value (world m) with
    | (Returns (value', None), w') =>
        processHooks p value' rest (after m w' [HookCalled (Some body)])
    | (Returns (_, Some e), w') =>
        (Returns (handleError p (Some e)), after m w' [HookCalled (Some body)])
    | (Panics pv, w') => (Panics pv, after m w' [HookCalled (Some body)])
    end.
Proof.
  simpl. unfold bind. rewrite call_body.
  destruct (body value (world m)) as [[[value' [e|]]|pv] w']; reflexivity.
Qed.

(** A prefix of hooks that all pass is run through, and logged. *)
Lemma processHooks_app_pass p pre rest : forall value m value1 w1,
  hooksPass pre value (world m) = Some (value1, w1) ->
  processHooks p value (pre ++ rest) m =
    processHooks p value1 rest (after m w1 (map HookCalled pre)).
Proof.
  induction pre as [|hook pre IH]; intros value m value1 w1 Hpass.
  - simpl in Hpass. injection Hpass as <- <-. simpl map. now rewrite after_nil.
  - destruct hook as [body|]; [|discriminate].
    rewrite <- app_comm_cons, processHooks_cons.
    simpl in Hpass.
    destruct (body value (world m)) as [[[value' [e|]]|pv] w']; try discriminate.
    rewrite (IH value' (after m w' [HookCalled (Some body)]) value1 w1 Hpass).
    now rewrite after_after.
Qed.

Lemma processHooks_pass p hooks value m value1 w1 :
  hooksPass hooks value (world m) = Some (value1, w1) ->
  processHooks p value hooks m =
    (Returns (value1, None), after m w1 (map HookCalled hooks)).
Proof.
  intros Hpass. rewrite <- (app_nil_r hooks) at 1.
  now rewrite (processHooks_app_pass p hooks [] value m value1 w1 Hpass).
Qed.

Lemma processHooks_fail p pre body rest value m valuek wk value' e w' :
  hooksPass pre value (world m) = Some (valuek, wk) ->
  body valuek wk = (Returns (value', Some e), w') ->
  processHooks p value (pre ++ Some body :: rest) m =
    (Returns (handleError p (Some e)),
     after m w' (map HookCalled (pre ++ [Some body]))).
Proof.
  intros Hpass Hbody.
  rewrite (processHooks_app_pass p pre _ value m valuek wk Hpass).
  rewrite processHooks_cons. simpl world. rewrite Hbody.
  now rewrite after_after, map_app.
Qed.

Lemma firstn_succ_nth {A : Type} (l : list A) (n : nat) (x : A) :
  nth_error l n = Some x -> firstn (S n) l = firstn n l ++ [x].
Proof.
  revert l; induction n as [|n IH]; intros [|y l] H; try discriminate.
  - injection H as ->. reflexivity.
  - simpl in H. change (firstn (S (S n)) (y :: l)) with (y :: firstn (S n) l).
    now rewrite (IH l H).
Qed.

Lemma processHooks_error_at p hooks (k : nat) body value m valuek wk value' e w' :
  nth_error hooks k = Some (Some body) ->
  hooksPass (firstn k hooks) value (world m) = Some (valuek, wk) ->
  body valuek wk = (Returns (value', Some e), w') ->
  processHooks p value hooks m =
    (Returns (handleError p (Some e)),
     after m w' (map HookCalled (firstn (S k) hooks))).
Proof.
  intros Hnth Hpass Hbody.
  rewrite <- (firstn_skipn_middle _ _ Hnth) at 1.
  rewrite (processHooks_fail p _ body _ value m valuek wk value' e w' Hpass Hbody).
  assert (E : firstn (S k) hooks = firstn k hooks ++ [Some body])
    by exact (firstn_succ_nth _ _ _ Hnth).
  congruence.
Qed.

(** C7: applying the empty chain to a value returns that value and a nil
    error; no call is made and the world is left as it was. *)
Theorem processHooks_empty_chain p value m :
  processHooks p value [] m = (Returns (value, None), m).
Proof. reflexivity. Qed.

(** C8: the default handleError returns the nil value together with the
    error it was given, whatever the error (nil included). *)
Theorem handleError_pass_through p (err : error) :
  handleError p err = (VNil, err).
Proof. reflexivity. Qed.

(** C1: when hooks 1..k-1 of a chain return nil errors and hook k returns
    the error e, processHooks returns handleError's output for e, that is
    (nil, e); the calls made are exactly those of hooks 1..k, in order, and
    the world is the one hook k left: hooks k+1..n are not invoked. *)
Theorem processHooks_stops_at_first_error
    p hooks (k : nat) body value m valuek wk value' e w' :
  (1 <= k)%nat ->
  nth_error hooks (k - 1) = Some (Some body) ->
  hooksPass (firstn (k - 1) hooks) value (world m) = Some (valuek, wk) ->
  body valuek wk = (Returns (value', Some e), w') ->
  processHooks p value hooks m =
    (Returns (handleError p (Some e)),
     after m w' (map HookCalled (firstn k hooks)))
  /\ handleError p (Some e) = (VNil, Some e)
  /\ (k <= List.length hooks)%nat.
Proof.
  intros Hk Hnth Hpass Hbody.
  assert (Hlen : (k - 1 < List.length hooks)%nat)
    by (apply nth_error_Some; congruence).
  split; [|split; [reflexivity | lia]].
  rewrite (processHooks_error_at p hooks (k - 1) body value m valuek wk value' e w'
             Hnth Hpass Hbody).
  now replace (S (k - 1)) with k by lia.
Qed.

(** The hooks a chain calls are always an initial segment of the chain. *)
Lemma processHooks_calls_prefix p hooks : forall value m,
  exists j : nat,
    (j <= List.length hooks)%nat /\
    calls (snd (processHooks p value hooks m)) =
      calls m ++ map HookCalled (firstn j hooks).
Proof.
  induction hooks as [|hook rest IH]; intros value m.
  - exists 0%nat. simpl. split; [lia | now rewrite app_nil_r].
  - destruct hook as [body|].
    + rewrite processHooks_cons.
      destruct (body value (world m)) as [[[value' [e|]]|pv] w'].
      * exists 1%nat. simpl. split; [lia | reflexivity].
      * destruct (IH value' (after m w' [HookCalled (Some body)])) as (j & Hj & E).
        exists (S j). split; [simpl; lia|].
        rewrite E. simpl. now rewrite <- app_assoc.
      * exists 1%nat. simpl. split; [lia | reflexivity].
    + exists 0%nat. simpl. split; [lia | now rewrite app_nil_r].
Qed.

Lemma fold_appendHook (hs : list (PhaseHook W)) : forall hooks,
  fold_left appendHook hs hooks = hooks ++ hs.
Proof.
  induction hs as [|h hs IH]; intros hooks; simpl.
  - now rewrite app_nil_r.
  - rewrite IH. unfold appendHook. now rewrite <- app_assoc.
Qed.

Lemma fold_prependHook (hs : list (PhaseHook W)) : forall hooks,
  fold_left prependHook hs hooks = rev hs ++ hooks.
Proof.
  induction hs as [|h hs IH]; intros hooks; simpl.
  - reflexivity.
  - rewrite IH. unfold prependHook. now rewrite <- app_assoc.
Qed.

(** C4: whatever prepends and appends built the chain, prependHook puts
    the new hook at index 0 and shifts every hook already there by one
    place, in the same order; hooks prepended one after the other stand at
    the front in the reverse order of the calls. *)
Theorem prependHook_puts_hook_first (ops : list (chainOp W)) (hook : PhaseHook W) :
  prependHook (buildChain ops) hook = hook :: buildChain ops
  /\ nth_error (prependHook (buildChain ops) hook) 0 = Some hook
  /\ (forall i : nat,
        nth_error (prependHook (buildChain ops) hook) (S i) =
          nth_error (buildChain ops) i)
  /\ (forall hs : list (PhaseHook W),
        fold_left prependHook hs (buildChain ops) = rev hs ++ buildChain ops).
Proof.
  repeat split; try reflexivity. intros hs. apply fold_prependHook.
Qed.

(** C5 (amended): a chain built by appending h1..hn to the empty chain holds
    h1..hn in that order.  Applying it calls an initial segment h1..hj of
    them, in append order; when every hook, fed the value the previous one
    returned, returns a nil error, it calls exactly h1..hn and returns the
    last hook's value with a nil error. *)
Theorem appended_hooks_run_in_append_order p (hs : list (PhaseHook W)) value m :
  fold_left appendHook hs [] = hs
  /\ (forall value1 w1,
        hooksPass hs value (world m) = Some (value1, w1) ->
        processHooks p value (fold_left appendHook hs []) m =
          (Returns (value1, None), after m w1 (map HookCalled hs)))
  /\ (exists j : nat,
        (j <= List.length hs)%nat /\
        calls (snd (processHooks p value (fold_left appendHook hs []) m)) =
          calls m ++ map HookCalled (firstn j hs)).
Proof.
  rewrite fold_appendHook. simpl app. repeat split.
  - intros value1 w1 Hpass. now apply processHooks_pass.
  - apply processHooks_calls_prefix.
Qed.

End ChainProperties.

(* ================================================================== *)
(** ** Properties of [run] and of the hook-attachment methods *)
(* ================================================================== *)

Section PhaseProperties.
Context {W : Type}.
Implicit Types (p : Phase W) (hooks : list (PhaseHook W)).
Implicit Types (m : machine W) (body exec : funcBody W).

(** [run], stage by stage. *)
Lemma run_stages p value m :
  run p value m =
    match processHooks p value (preHooks p) m with
    | (Panics pv, m1) => (Panics pv, m1)
    | (Returns (value1, Some e), m1) => (Returns (value1, Some e), m1)
    | (Returns (value1, None), m1) =>
        match execute p with
        | None =>
            (Panics (PanicString ("phase " ++ Name p ++ " not implemented")), m1)
        | Some exec =>
            let m2 := after m1 (snd (exec value1 (world m1)))
                        [ExecuteCalled (Some exec)] in
            match fst (exec value1 (world m1)) with
            | Panics pv => (Panics pv, m2)
            | Returns (_, Some e) => (Returns (handleError p (Some e)), m2)
            | Returns (value2, None) =>
                match processHooks p value2 (postHooks p) m2 with
                | (Panics pv, m3) => (Panics pv, m3)
                | (Returns (value3, err), m3) => (Returns (value3, err), m3)
                end
            end
        end
    end.
Proof.
  unfold run, bind.
  destruct (processHooks p value (preHooks p) m) as [[[value1 [e|]]|pv] m1];
    try reflexivity.
  destruct (execute p) as [exec|]; [|reflexivity].
  rewrite call_body. cbv zeta.
  destruct (fst (exec value1 (world m1))) as [[value2 [e|]]|pv]; try reflexivity.
  destruct (processHooks p value2 (postHooks p) _) as [[[value3 [e|]]|pv] m3];
    reflexivity.
Qed.

(** What a chain that returns normally has done: either every hook passed,
    or the hooks up to some position passed and the one there returned the
    error the chain reports. *)
Lemma processHooks_returns_inv p hooks : forall value m r m',
  processHooks p value hooks m = (Returns r, m') ->
  (exists value1,
      r = (value1, None) /\
      hooksPass hooks value (world m) = Some (value1, world m'))
  \/ (exists (k : nat) body valuek wk value' e,
        nth_error hooks k = Some (Some body) /\
        hooksPass (firstn k hooks) value (world m) = Some (valuek, wk) /\
        body valuek wk = (Returns (value', Some e), world m') /\
        r = (VNil, Some e)).
Proof.
  induction hooks as [|hook rest IH]; intros value m r m' Hrun.
  - simpl in Hrun. injection Hrun as <- <-. left. now exists value.
  - destruct hook as [body|]; [|discriminate].
    rewrite processHooks_cons in Hrun.
    destruct (body value (world m)) as [[[value' [e|]]|pv] w'] eqn:Hbody;
      try discriminate.
    + injection Hrun as <- <-. right.
      exists 0%nat, body, value, (world m), value', e.
      repeat split; assumption.
    + destruct (IH _ _ _ _ Hrun) as [(value1 & -> & Hpass)
                                    |(k & bk & valuek & wk & v' & e & Hn & Hp & Hb & ->)].
      * left. exists value1. split; [reflexivity|]. simpl. now rewrite Hbody.
      * right. exists (S k), bk, valuek, wk, v', e.
        repeat split; try assumption. simpl. now rewrite Hbody.
Qed.

Lemma run_pass_through p exec value m value1 w1 value2 w2 value3 w3 :
  execute p = Some exec ->
  hooksPass (preHooks p) value (world m) = Some (value1, w1) ->
  exec value1 w1 = (Returns (value2, None), w2) ->
  hooksPass (postHooks p) value2 w2 = Some (value3, w3) ->
  run p value m =
    (Returns (value3, None),
     after m w3 (map HookCalled (preHooks p)
                 ++ [ExecuteCalled (Some exec)]
                 ++ map HookCalled (postHooks p))).
Proof.
  intros Hexec Hpre Hbody Hpost.
  rewrite run_stages, (processHooks_pass p _ _ _ _ _ Hpre), Hexec.
  cbn [world after]. rewrite Hbody. cbv zeta. cbn [fst snd].
  fold (after m w1 (map HookCalled (preHooks p))).
  rewrite (processHooks_pass p (postHooks p) value2 _ value3 w3) by exact Hpost.
  now rewrite !after_after.
Qed.

Lemma run_postHook_error
    p exec (k : nat) body value m value1 w1 value2 w2 valuek wk value' e w' :
  execute p = Some exec ->
  hooksPass (preHooks p) value (world m) = Some (value1, w1) ->
  exec value1 w1 = (Returns (value2, None), w2) ->
  nth_error (postHooks p) k = Some (Some body) ->
  hooksPass (firstn k (postHooks p)) value2 w2 = Some (valuek, wk) ->
  body valuek wk = (Returns (value', Some e), w') ->
  run p value m =
    (Returns (handleError p (Some e)),
     after m w' (map HookCalled (preHooks p)
                 ++ [ExecuteCalled (Some exec)]
                 ++ map HookCalled (firstn (S k) (postHooks p)))).
Proof.
  intros Hexec Hpre Hbody Hnth Hpost Hfail.
  rewrite run_stages, (processHooks_pass p _ _ _ _ _ Hpre), Hexec.
  cbn [world after]. rewrite Hbody. cbv zeta. cbn [fst snd].
  fold (after m w1 (map HookCalled (preHooks p))).
  rewrite (processHooks_error_at p (postHooks p) k body value2 _ valuek wk value' e w')
    by assumption.
  now rewrite !after_after.
Qed.

(** C2: when every pre-hook returns a nil error and execute returns the
    error e, run returns handleError's output for e; the calls made are
    those of the pre-hooks and of execute, and the world is the one execute
    left: no post-hook is invoked. *)
Theorem run_execute_error_skips_postHooks
    p exec value m value1 w1 value2 e w2 :
  execute p = Some exec ->
  hooksPass (preHooks p) value (world m) = Some (value1, w1) ->
  exec value1 w1 = (Returns (value2, Some e), w2) ->
  run p value m =
    (Returns (handleError p (Some e)),
     after m w2 (map HookCalled (preHooks p) ++ [ExecuteCalled (Some exec)])).
Proof.
  intros Hexec Hpre Hbody.
  rewrite run_stages, (processHooks_pass p _ _ _ _ _ Hpre), Hexec.
  cbn [world after]. rewrite Hbody. cbv zeta. cbn [fst snd].
  fold (after m w1 (map HookCalled (preHooks p))).
  now rewrite after_after.
Qed.

(** C9: when pre-hooks 1..k-1 return nil errors and pre-hook k returns the
    error e, run returns handleError's output for e and does not panic,
    whatever the execute field holds (nil included); the calls made are
    those of pre-hooks 1..k only. *)
Theorem run_preHook_error_returns_before_execute
    p (k : nat) body value m valuek wk value' e w' :
  (1 <= k)%nat ->
  nth_error (preHooks p) (k - 1) = Some (Some body) ->
  hooksPass (firstn (k - 1) (preHooks p)) value (world m) = Some (valuek, wk) ->
  body valuek wk = (Returns (value', Some e), w') ->
  run p value m =
    (Returns (handleError p (Some e)),
     after m w' (map HookCalled (firstn k (preHooks p))))
  /\ isPanic (fst (run p value m)) = false.
Proof.
  intros Hk Hnth Hpass Hbody.
  pose proof (processHooks_error_at p _ _ _ _ m _ _ _ _ _ Hnth Hpass Hbody)
    as Hchain.
  replace (S (k - 1)) with k in Hchain by lia.
  assert (Hrun : run p value m =
                   (Returns (handleError p (Some e)),
                    after m w' (map HookCalled (firstn k (preHooks p))))).
  { rewrite run_stages, Hchain. reflexivity. }
  split; [exact Hrun | now rewrite Hrun].
Qed.

(** C3 (amended): on a Phase whose execute field is nil, calling execute
    panics; run panics with "phase <Name> not implemented" when every
    pre-hook returns a nil error (in particular when there is no pre-hook);
    and run returns normally only when some pre-hook returned a non-nil
    error, which run then reports with a nil value. *)
Theorem run_without_execute p value m :
  execute p = None ->
  call ExecuteCalled (execute p) value m = (Panics NilDereference, m)
  /\ (forall value1 w1,
        hooksPass (preHooks p) value (world m) = Some (value1, w1) ->
        run p value m =
          (Panics (PanicString ("phase " ++ Name p ++ " not implemented")),
           after m w1 (map HookCalled (preHooks p))))
  /\ (forall r m',
        run p value m = (Returns r, m') ->
        exists (k : nat) body valuek wk value' e,
          nth_error (preHooks p) k = Some (Some body) /\
          hooksPass (firstn k (preHooks p)) value (world m) = Some (valuek, wk) /\
          body valuek wk = (Returns (value', Some e), world m') /\
          r = (VNil, Some e)).
Proof.
  intros Hnil. split; [|split].
  - rewrite Hnil. reflexivity.
  - intros value1 w1 Hpre.
    now rewrite run_stages, (processHooks_pass p _ _ _ _ _ Hpre), Hnil.
  - intros r m' Hrun. rewrite run_stages, Hnil in Hrun.
    destruct (processHooks p value (preHooks p) m) as [[[value1 [e|]]|pv] m1] eqn:Hpre;
      try discriminate.
    injection Hrun as <- <-.
    destruct (processHooks_returns_inv p _ _ _ _ _ Hpre)
      as [(v & Hv & _)|H]; [discriminate | exact H].
Qed.

End PhaseProperties.

(** TestProcessHooksFail, evaluated: the chain stops at its second hook. *)
Lemma failHooks_stop_at_second (p : Phase unit) :
  processHooks p (VInt 0) (failHooks 64) (start tt) =
    (Returns (VNil, Some AnError),
     after (start tt) tt (map HookCalled (firstn 2 (failHooks 64)))).
Proof.
  exact (processHooks_fail p [Some (addHook 64 1)] (addFailHook 64 2)
           [Some (addHook 64 3)] (VInt 0) (start tt) (VInt 1) tt (VInt 3)
           AnError tt eq_refl eq_refl).
Qed.

(** TestProcessHooksFail: the second of three hooks fails. *)
Lemma processHooks_stops_at_first_error_witness :
  (1 <= 2)%nat
  /\ nth_error (failHooks (W := unit) 64) (2 - 1) = Some (Some (addFailHook 64 2))
  /\ hooksPass (firstn (2 - 1) (failHooks 64)) (VInt 0) tt = Some (VInt 1, tt)
  /\ addFailHook 64 2 (VInt 1) tt = (Returns (VInt 3, Some AnError), tt)
  /\ processHooks (W := unit) zeroPhase (VInt 0) (failHooks 64) (start tt) =
       (Returns (handleError (W := unit) zeroPhase (Some AnError)),
        after (start tt) tt (map HookCalled (firstn 2 (failHooks 64)))).
Proof.
  assert (H1 : (1 <= 2)%nat) by lia.
  assert (H2 : nth_error (failHooks (W := unit) 64) (2 - 1)
               = Some (Some (addFailHook 64 2))) by reflexivity.
  assert (H3 : hooksPass (firstn (2 - 1) (failHooks 64)) (VInt 0) tt
               = Some (VInt 1, tt)) by reflexivity.
  assert (H4 : addFailHook 64 2 (VInt 1) tt
               = (Returns (VInt 3, Some AnError), tt)) by reflexivity.
  split; [exact H1|]. split; [exact H2|]. split; [exact H3|]. split; [exact H4|].
  exact (proj1 (processHooks_stops_at_first_error zeroPhase (failHooks 64) 2
                  (addFailHook 64 2) (VInt 0) (start tt) (VInt 1) tt (VInt 3)
                  AnError tt H1 H2 H3 H4)).
Defined.

(** C5, as stated, fails: of the three hooks of TestProcessHooksFail,
    appended in order, the third is never called. *)
Lemma appended_hooks_not_all_called :
  let chain := fold_left appendHook (failHooks (W := unit) 64) [] in
  let result := processHooks zeroPhase (VInt 0) chain (start tt) in
  chain = failHooks 64
  /\ calls (snd result) = map HookCalled (firstn 2 (failHooks 64))
  /\ calls (snd result) <> map HookCalled (failHooks 64).
Proof.
  assert (E : calls (snd (processHooks zeroPhase (VInt 0)
                           (fold_left appendHook (failHooks (W := unit) 64) [])
                           (start tt)))
              = map HookCalled (firstn 2 (failHooks 64))).
  { change (fold_left appendHook (failHooks (W := unit) 64) [])
      with (failHooks (W := unit) 64).
    now rewrite failHooks_stop_at_second. }
  cbv zeta. split; [reflexivity|]. split; [exact E|].
  rewrite E. intros H. apply (f_equal (@List.length _)) in H. discriminate H.
Qed.

(** TestProcessHooksPass: three appended hooks, all passing. *)
Lemma appended_hooks_run_in_append_order_witness :
  hooksPass (passHooks (W := unit) 64) (VInt 0) tt = Some (VInt 6, tt)
  /\ processHooks (W := unit) zeroPhase (VInt 0)
       (fold_left appendHook (passHooks 64) []) (start tt) =
       (Returns (VInt 6, None), after (start tt) tt (map HookCalled (passHooks 64))).
Proof.
  assert (H : hooksPass (passHooks (W := unit) 64) (VInt 0) tt = Some (VInt 6, tt))
    by reflexivity.
  split; [exact H|].
  exact (proj1 (proj2 (appended_hooks_run_in_append_order zeroPhase (passHooks 64)
                         (VInt 0) (start tt))) (VInt 6) tt H).
Defined.

(** TestDefaultRunPanics and TestDefaultExecutePanics: the zero Phase. *)
Lemma run_without_execute_witness :
  execute (zeroPhase (W := unit)) = None
  /\ call ExecuteCalled (execute (zeroPhase (W := unit))) VStruct (start tt) =
       (Panics NilDereference, start tt)
  /\ run (W := unit) zeroPhase VStruct (start tt) =
       (Panics (PanicString "phase  not implemented"), start tt).
Proof.
  assert (H : execute (zeroPhase (W := unit)) = None) by reflexivity.
  destruct (run_without_execute zeroPhase VStruct (start tt) H) as (Hcall & Hrun & _).
  split; [exact H|]. split; [exact Hcall|].
  exact (Hrun VStruct tt eq_refl).
Defined.

(** C3, as stated, fails: with the hooks of TestProcessHooksFail as
    pre-hooks and no execute function, run returns (nil, AnError). *)
Lemma run_without_execute_returns_on_preHook_error :
  execute (failingPrePhase (W := unit) 64) = None
  /\ run (failingPrePhase 64) (VInt 0) (start tt) =
       (Returns (VNil, Some AnError),
        after (start tt) tt (map HookCalled (firstn 2 (failHooks 64))))
  /\ isPanic (fst (run (failingPrePhase (W := unit) 64) (VInt 0) (start tt))) = false.
Proof.
  assert (E : run (failingPrePhase 64) (VInt 0) (start tt) =
                (Returns (VNil, Some AnError),
                 after (start tt) tt (map HookCalled (firstn 2 (failHooks 64))))).
  { rewrite run_stages.
    change (preHooks (failingPrePhase (W := unit) 64)) with (failHooks (W := unit) 64).
    now rewrite failHooks_stop_at_second. }
  split; [reflexivity|]. split; [exact E | now rewrite E].
Qed.

(** A failing execute between a passing pre-hook and a post-hook. *)
Lemma run_execute_error_skips_postHooks_witness :
  execute (failingExecutePhase (W := unit) 64) = Some (addFailHook 64 2)
  /\ hooksPass (preHooks (failingExecutePhase 64)) (VInt 0) tt = Some (VInt 1, tt)
  /\ addFailHook 64 2 (VInt 1) tt = (Returns (VInt 3, Some AnError), tt)
  /\ run (W := unit) (failingExecutePhase 64) (VInt 0) (start tt) =
       (Returns (handleError (failingExecutePhase (W := unit) 64) (Some AnError)),
        after (start tt) tt
          (map HookCalled (preHooks (failingExecutePhase 64))
           ++ [ExecuteCalled (Some (addFailHook 64 2))])).
Proof.
  assert (H1 : execute (failingExecutePhase (W := unit) 64)
               = Some (addFailHook 64 2)) by reflexivity.
  assert (H2 : hooksPass (preHooks (failingExecutePhase (W := unit) 64)) (VInt 0) tt
               = Some (VInt 1, tt)) by reflexivity.
  assert (H3 : addFailHook (W := unit) 64 2 (VInt 1) tt
               = (Returns (VInt 3, Some AnError), tt)) by reflexivity.
  split; [exact H1|]. split; [exact H2|]. split; [exact H3|].
  exact (run_execute_error_skips_postHooks (failingExecutePhase 64)
           (addFailHook 64 2) (VInt 0) (start tt) (VInt 1) tt (VInt 3) AnError tt
           H1 H2 H3).
Defined.

(** A failing pre-hook on a Phase without execute function. *)
Lemma run_preHook_error_returns_before_execute_witness :
  (1 <= 2)%nat
  /\ nth_error (preHooks (failingPrePhase (W := unit) 64)) (2 - 1)
       = Some (Some (addFailHook 64 2))
  /\ hooksPass (firstn (2 - 1) (preHooks (failingPrePhase 64))) (VInt 0) tt
       = Some (VInt 1, tt)
  /\ addFailHook 64 2 (VInt 1) tt = (Returns (VInt 3, Some AnError), tt)
  /\ execute (failingPrePhase (W := unit) 64) = None
  /\ run (W := unit) (failingPrePhase 64) (VInt 0) (start tt) =
       (Returns (handleError (failingPrePhase (W := unit) 64) (Some AnError)),
        after (start tt) tt
          (map HookCalled (firstn 2 (preHooks (failingPrePhase 64)))))
  /\ isPanic (fst (run (W := unit) (failingPrePhase 64) (VInt 0) (start tt))) = false.
Proof.
  assert (H1 : (1 <= 2)%nat) by lia.
  assert (H2 : nth_error (preHooks (failingPrePhase (W := unit) 64)) (2 - 1)
               = Some (Some (addFailHook 64 2))) by reflexivity.
  assert (H3 : hooksPass (firstn (2 - 1) (preHooks (failingPrePhase (W := unit) 64)))
                 (VInt 0) tt = Some (VInt 1, tt)) by reflexivity.
  assert (H4 : addFailHook (W := unit) 64 2 (VInt 1) tt
               = (Returns (VInt 3, Some AnError), tt)) by reflexivity.
  split; [exact H1|]. split; [exact H2|]. split; [exact H3|]. split; [exact H4|].
  split; [reflexivity|].
  exact (run_preHook_error_returns_before_execute (failingPrePhase 64) 2
           (addFailHook 64 2) (VInt 0) (start tt) (VInt 1) tt (VInt 3) AnError tt
           H1 H2 H3 H4).
Defined.

(* ================================================================== *)
(** ** The round trip of TestTestPhaseRun *)
(* ================================================================== *)

Section RoundTrip.
Context {W : Type}.
Variable intSize : Z.
Hypothesis size_ge_2 : 2 <= intSize.

Lemma pow_intSize :
  2 ^ intSize = 4 * 2 ^ (intSize - 2) /\
  2 ^ (intSize - 1) = 2 * 2 ^ (intSize - 2) /\
  0 < 2 ^ (intSize - 2).
Proof.
  assert (H2 : 2 ^ (intSize - 1) = 2 * 2 ^ (intSize - 2)).
  { replace (intSize - 1) with (Z.succ (intSize - 2)) by lia.
    apply Z.pow_succ_r. lia. }
  assert (H1 : 2 ^ intSize = 2 * 2 ^ (intSize - 1)).
  { replace intSize with (Z.succ (intSize - 1)) at 1 by lia.
    apply Z.pow_succ_r. lia. }
  assert (H3 : 0 < 2 ^ (intSize - 2)) by (apply Z.pow_pos_nonneg; lia).
  lia.
Qed.

Lemma wrap_in_range z :
  GoInt.minInt intSize <= z <= GoInt.maxInt intSize ->
  GoInt.wrap intSize z = z.
Proof.
  unfold GoInt.wrap, GoInt.minInt, GoInt.maxInt.
  destruct pow_intSize as (H4 & H2 & Hpos). intros Hz.
  rewrite Z.mod_small; lia.
Qed.

Lemma mul_2_no_overflow val :
  - 2 ^ (intSize - 2) <= val < 2 ^ (intSize - 2) ->
  GoInt.mul intSize val 2 = val * 2.
Proof.
  intros Hval. unfold GoInt.mul. apply wrap_in_range.
  unfold GoInt.minInt, GoInt.maxInt.
  destruct pow_intSize as (H4 & H2 & Hpos). lia.
Qed.

Lemma quo_2_of_double val :
  - 2 ^ (intSize - 2) <= val < 2 ^ (intSize - 2) ->
  GoInt.quo intSize (val * 2) 2 = Some val.
Proof.
  intros Hval. unfold GoInt.quo. simpl (2 =? 0).
  rewrite Z.quot_mul by lia. f_equal. apply wrap_in_range.
  unfold GoInt.minInt, GoInt.maxInt.
  destruct pow_intSize as (H4 & H2 & Hpos). lia.
Qed.

Lemma wrap_shift z (k : Z) :
  GoInt.minInt intSize <= z + k * 2 ^ intSize <= GoInt.maxInt intSize ->
  GoInt.wrap intSize z = z + k * 2 ^ intSize.
Proof.
  intros Hz. rewrite <- (wrap_in_range _ Hz). unfold GoInt.wrap. f_equal.
  replace (z + k * 2 ^ intSize - GoInt.minInt intSize)
    with (z - GoInt.minInt intSize + k * 2 ^ intSize) by lia.
  now rewrite Z_mod_plus_full.
Qed.

(** X14: for an int val outside the window -2^(intSize-2) <= val <
    2^(intSize-2), run on the Phase of TestTestPhaseRun, applied to val,
    returns (nil, AnError): the double wraps around, the halved value is off
    by 2^(intSize-1), and the last post-hook reports it. *)
Lemma run_testPhase_wraps (val : Z) (m : machine W) :
  GoInt.minInt intSize <= val <= GoInt.maxInt intSize ->
  ~ (- 2 ^ (intSize - 2) <= val < 2 ^ (intSize - 2)) ->
  fst (run (testPhase intSize val) (VInt val) m) = Returns (VNil, Some AnError).
Proof.
  unfold GoInt.minInt, GoInt.maxInt. intros Hint Hout.
  destruct pow_intSize as (H4 & H2 & Hpos).
  assert (Hhalf : exists q, GoInt.quo intSize (GoInt.mul intSize val 2) 2 = Some q
                            /\ q <> val).
  { unfold GoInt.quo, GoInt.mul. simpl (2 =? 0).
    destruct (Z_lt_le_dec val 0) as [Hneg|Hpos'].
    - exists (val + 2 ^ (intSize - 1)). split; [|lia]. f_equal.
      rewrite (wrap_shift (val * 2) 1)
        by (unfold GoInt.minInt, GoInt.maxInt; lia).
      replace (val * 2 + 1 * 2 ^ intSize) with ((val + 2 ^ (intSize - 1)) * 2) by lia.
      rewrite Z.quot_mul by lia.
      apply wrap_in_range. unfold GoInt.minInt, GoInt.maxInt. lia.
    - exists (val - 2 ^ (intSize - 1)). split; [|lia]. f_equal.
      rewrite (wrap_shift (val * 2) (-1))
        by (unfold GoInt.minInt, GoInt.maxInt; lia).
      replace (val * 2 + -1 * 2 ^ intSize) with ((val - 2 ^ (intSize - 1)) * 2) by lia.
      rewrite Z.quot_mul by lia.
      apply wrap_in_range. unfold GoInt.minInt, GoInt.maxInt. lia. }
  destruct Hhalf as (q & Hquo & Hq).
  rewrite (run_postHook_error (testPhase intSize val)
             (checkHook (GoInt.mul intSize val 2)) 2 (checkHook val) (VInt val) m
             (VInt (GoInt.mul intSize val 2)) (world m)
             (VInt (GoInt.mul intSize val 2)) (world m)
             (VInt q) (world m) (VInt q) AnError (world m)).
  - reflexivity.
  - reflexivity.
  - cbv [hooksPass testPhase preHooks doubleHook checkHook].
    now rewrite (Z.eqb_refl (GoInt.mul intSize val 2)).
  - cbv [checkHook]. now rewrite (Z.eqb_refl (GoInt.mul intSize val 2)).
  - reflexivity.
  - cbv [hooksPass testPhase postHooks firstn checkHook halveHook].
    now rewrite (Z.eqb_refl (GoInt.mul intSize val 2)), Hquo.
  - cbv [checkHook]. apply Z.eqb_neq in Hq. now rewrite Hq.
Qed.

(** C6 (amended): for an int val whose double does not overflow
    (-2^(intSize-2) <= val < 2^(intSize-2)), run on the Phase of
    TestTestPhaseRun, applied to val, returns val and a nil error, after
    calling its two pre-hooks, execute and its three post-hooks. *)
Theorem run_testPhase_round_trip (val : Z) (m : machine W) :
  - 2 ^ (intSize - 2) <= val < 2 ^ (intSize - 2) ->
  run (testPhase intSize val) (VInt val) m =
    (Returns (VInt val, None),
     after m (world m)
       (map HookCalled (preHooks (testPhase intSize val))
        ++ [ExecuteCalled (execute (testPhase intSize val))]
        ++ map HookCalled (postHooks (testPhase intSize val)))).
Proof.
  intros Hval.
  apply (run_pass_through (testPhase intSize val)
           (checkHook (GoInt.mul intSize val 2)) (VInt val) m
           (VInt (val * 2)) (world m) (VInt (val * 2)) (world m)
           (VInt val) (world m)).
  - reflexivity.
  - cbv [hooksPass testPhase preHooks doubleHook checkHook].
    rewrite (mul_2_no_overflow val Hval), Z.eqb_refl. reflexivity.
  - cbv [checkHook].
    rewrite (mul_2_no_overflow val Hval), Z.eqb_refl. reflexivity.
  - cbv [hooksPass testPhase postHooks halveHook checkHook].
    rewrite (mul_2_no_overflow val Hval), (quo_2_of_double val Hval), !Z.eqb_refl.
    reflexivity.
Qed.

End RoundTrip.

(** TestTestPhaseRun: val = 1, on a 64-bit target. *)
Lemma run_testPhase_round_trip_witness :
  2 <= 64
  /\ - 2 ^ (64 - 2) <= 1 < 2 ^ (64 - 2)
  /\ run (W := unit) (testPhase 64 1) (VInt 1) (start tt) =
       (Returns (VInt 1, None),
        after (start tt) (world (start tt))
          (map HookCalled (preHooks (testPhase 64 1))
           ++ [ExecuteCalled (execute (testPhase 64 1))]
           ++ map HookCalled (postHooks (testPhase 64 1)))).
Proof.
  assert (H1 : 2 <= 64) by lia.
  assert (H2 : - 2 ^ (64 - 2) <= 1 < 2 ^ (64 - 2)) by (simpl; lia).
  split; [exact H1|]. split; [exact H2|].
  exact (run_testPhase_round_trip 64 H1 1 (start tt) H2).
Defined.

(** C6, as stated, fails: for val = 2^62, an int of a 64-bit target, the
    double wraps around to -2^63, the post-hooks halve it to -2^62, and the
    last post-hook reports the mismatch: run returns (nil, AnError). *)
Lemma run_testPhase_overflow :
  GoInt.minInt 64 <= 2 ^ 62 <= GoInt.maxInt 64
  /\ GoInt.mul 64 (2 ^ 62) 2 = - 2 ^ 63
  /\ fst (run (W := unit) (testPhase 64 (2 ^ 62)) (VInt (2 ^ 62)) (start tt))
       = Returns (VNil, Some AnError).
Proof.
  split; [|split].
  - vm_compute. split; discriminate.
  - vm_compute. reflexivity.
  - vm_compute. reflexivity.
Qed.

(* ================================================================== *)
(** ** The remaining tests, evaluated *)
(* ================================================================== *)

(** TestTestPhaseExecute: an assigned execute returns what it is given. *)
Example TestTestPhaseExecute :
  fst (call (W := unit) ExecuteCalled (Some identityExecute) (VInt 1) (start tt))
  = Returns (VInt 1, None).
Proof. reflexivity. Qed.

(** A value that is not an int makes the first pre-hook of TestTestPhaseRun
    panic on its type assertion. *)
Example run_testPhase_on_string :
  fst (run (W := unit) (testPhase 64 1) (VString "x") (start tt))
  = Panics (TypeAssertion (VString "x")).
Proof. reflexivity. Qed.

(* ================================================================== *)
(** ** Further properties of the hook chains *)
(* ================================================================== *)

Section MoreChainProperties.
Context {W : Type}.
Implicit Types (p : Phase W) (hooks rest : list (PhaseHook W)).
Implicit Types (m : machine W) (body : funcBody W).

Lemma processHooks_nil_head p rest value m :
  processHooks p value (@cons (PhaseHook W) None rest) m = (Panics NilDereference, m).
Proof. reflexivity. Qed.

(** The receiver only supplies handleError, which does not look at it. *)
Lemma processHooks_receiver p p' hooks : forall value m,
  processHooks p value hooks m = processHooks p' value hooks m.
Proof.
  induction hooks as [|[body|] rest IH]; intros value m; try reflexivity.
  rewrite !processHooks_cons.
  destruct (body value (world m)) as [[[value' [e|]]|pv] w']; try reflexivity.
  apply IH.
Qed.

Lemma processHooks_app p (hs1 hs2 : list (PhaseHook W)) : forall value m,
  processHooks p value (hs1 ++ hs2) m =
    match processHooks p value hs1 m with
    | (Returns (value1, None), m1) => processHooks p value1 hs2 m1
    | (Returns (value1, Some e), m1) => (Returns (value1, Some e), m1)
    | (Panics pv, m1) => (Panics pv, m1)
    end.
Proof.
  induction hs1 as [|[body|] hs1 IH]; intros value m; try reflexivity.
  rewrite <- app_comm_cons, !processHooks_cons.
  destruct (body value (world m)) as [[[value' [e|]]|pv] w']; try reflexivity.
  apply IH.
Qed.

(** A chain that returns a nil error has called every one of its hooks. *)
Lemma processHooks_nil_error_inv p hooks value m value' m' :
  processHooks p value hooks m = (Returns (value', None), m') ->
  hooksPass hooks value (world m) = Some (value', world m')
  /\ m' = after m (world m') (map HookCalled hooks).
Proof.
  intros Hrun.
  destruct (processHooks_returns_inv p hooks value m _ m' Hrun)
    as [(v & Hv & Hpass)|(k & b & vk & wk & v' & e & _ & _ & _ & Hr)];
    [|discriminate].
  injection Hv as <-. split; [exact Hpass|].
  rewrite (processHooks_pass p hooks value m value' (world m') Hpass) in Hrun.
  now injection Hrun.
Qed.

(** A chain that reports an error reports it with the nil value. *)
Lemma processHooks_error_value p hooks value m value' e m' :
  processHooks p value hooks m = (Returns (value', Some e), m') ->
  value' = VNil.
Proof.
  intros Hrun.
  destruct (processHooks_returns_inv p hooks value m _ m' Hrun)
    as [(v & Hv & _)|(k & b & vk & wk & v' & e' & _ & _ & _ & Hr)];
    [discriminate | now injection Hr].
Qed.

(** X1: applying the concatenation of two chains is applying the first and,
    when it returns a nil error, the second to the value and in the world the
    first one left; an error or a panic of the first chain is the result. *)
Theorem processHooks_concat p (hs1 hs2 : list (PhaseHook W)) value m :
  processHooks p value (hs1 ++ hs2) m =
    match processHooks p value hs1 m with
    | (Returns (value1, None), m1) => processHooks p value1 hs2 m1
    | (Returns (value1, Some e), m1) => (Returns (value1, Some e), m1)
    | (Panics pv, m1) => (Panics pv, m1)
    end.
Proof. apply processHooks_app. Qed.

(** X2: a nil func in a chain, reached after hooks that all return nil
    errors, makes processHooks panic with a nil dereference; the hooks behind
    it are not called and handleError is not applied. *)
Theorem processHooks_nil_hook_panics p hooks (k : nat) value m valuek wk :
  nth_error hooks k = Some None ->
  hooksPass (firstn k hooks) value (world m) = Some (valuek, wk) ->
  processHooks p value hooks m =
    (Panics NilDereference, after m wk (map HookCalled (firstn k hooks))).
Proof.
  intros Hnth Hpass.
  rewrite <- (firstn_skipn_middle _ _ Hnth) at 1.
  rewrite (processHooks_app_pass p _ _ value m valuek wk Hpass).
  apply processHooks_nil_head.
Qed.

(** X3: a hook that panics, reached after hooks that all return nil errors,
    makes processHooks panic with the same value; the hooks behind it are not
    called and handleError is not applied. *)
Theorem processHooks_hook_panic_propagates
    p hooks (k : nat) body value m valuek wk pv w' :
  nth_error hooks k = Some (Some body) ->
  hooksPass (firstn k hooks) value (world m) = Some (valuek, wk) ->
  body valuek wk = (Panics pv, w') ->
  processHooks p value hooks m =
    (Panics pv, after m w' (map HookCalled (firstn (S k) hooks))).
Proof.
  intros Hnth Hpass Hbody.
  rewrite <- (firstn_skipn_middle _ _ Hnth) at 1.
  rewrite (processHooks_app_pass p _ _ value m valuek wk Hpass).
  rewrite processHooks_cons. cbn [world after]. rewrite Hbody.
  rewrite (firstn_succ_nth _ _ _ Hnth), map_app.
  unfold after. cbn [world calls]. now rewrite <- app_assoc.
Qed.

(** X4: what processHooks returns is either a value with a nil error, and
    then every hook of the chain was called and returned a nil error, or the
    nil value with a non-nil error: never a value together with an error. *)
Theorem processHooks_result_shape p hooks value m value' err m' :
  processHooks p value hooks m = (Returns (value', err), m') ->
  (err = None
   /\ hooksPass hooks value (world m) = Some (value', world m')
   /\ calls m' = calls m ++ map HookCalled hooks)
  \/ (exists e, err = Some e /\ value' = VNil).
Proof.
  intros Hrun. destruct err as [e|].
  - right. exists e. split; [reflexivity|].
    exact (processHooks_error_value p hooks value m value' e m' Hrun).
  - left. destruct (processHooks_nil_error_inv p hooks value m value' m' Hrun)
      as (Hpass & ->).
    repeat split; assumption || reflexivity.
Qed.

Lemma fold_applyOp (ops : list (chainOp W)) : forall hooks,
  fold_left applyOp ops hooks =
    rev (prependedHooks ops) ++ hooks ++ appendedHooks ops.
Proof.
  induction ops as [|[hook|hook] ops IH]; intros hooks; simpl.
  - now rewrite app_nil_r.
  - rewrite IH. unfold prependHook. now rewrite <- !app_assoc.
  - rewrite IH. unfold appendHook. now rewrite <- !app_assoc.
Qed.

(** X9: whatever the interleaving of prepends and appends, the chain they
    build from the empty one holds the prepended hooks in the reverse order
    of their calls, followed by the appended hooks in the order of their
    calls; it has one hook per operation. *)
Theorem buildChain_order (ops : list (chainOp W)) :
  buildChain ops = rev (prependedHooks ops) ++ appendedHooks ops
  /\ List.length (buildChain ops) = List.length ops.
Proof.
  assert (E : buildChain ops = rev (prependedHooks ops) ++ appendedHooks ops)
    by apply (fold_applyOp ops []).
  split; [exact E|]. rewrite E, length_app, length_rev. clear E.
  induction ops as [|[hook|hook] ops IH]; simpl; lia.
Qed.

(** X10: appendHook puts the new hook at the last index, one past the hooks
    already in the chain, and leaves every hook already there at its index;
    hooks appended one after the other stand at the end in the order of the
    calls. *)
Theorem appendHook_puts_hook_last (ops : list (chainOp W)) (hook : PhaseHook W) :
  List.length (appendHook (buildChain ops) hook) = S (List.length (buildChain ops))
  /\ nth_error (appendHook (buildChain ops) hook) (List.length (buildChain ops))
     = Some hook
  /\ (forall i : nat,
        (i < List.length (buildChain ops))%nat ->
        nth_error (appendHook (buildChain ops) hook) i = nth_error (buildChain ops) i)
  /\ (forall hs : list (PhaseHook W),
        fold_left appendHook hs (buildChain ops) = buildChain ops ++ hs).
Proof.
  unfold appendHook. split; [|split; [|split]].
  - rewrite length_app. simpl. lia.
  - rewrite nth_error_app2 by lia. now rewrite Nat.sub_diag.
  - intros i Hi. now apply nth_error_app1.
  - intros hs. apply fold_appendHook.
Qed.

End MoreChainProperties.

(* ================================================================== *)
(** ** Further properties of [run] and of the attachment methods *)
(* ================================================================== *)

Section MorePhaseProperties.
Context {W : Type}.
Implicit Types (p : Phase W) (hooks : list (PhaseHook W)) (hook : PhaseHook W).
Implicit Types (m : machine W) (body exec : funcBody W).
Local Open Scope go_scope.

Lemma snd_rethrow (r : outcome (Value * error) * machine W) :
  snd (match r with
       | (Panics pv, m3) => (Panics pv, m3)
       | (Returns (value3, err), m3) => (Returns (value3, err), m3)
       end) = snd r.
Proof. now destruct r as [[[value3 err]|pv] m3]. Qed.

(** X5: what run returns is either a value with a nil error, and then the
    execute function is assigned and run called every pre-hook, execute and
    every post-hook, in this order, or the nil value with a non-nil error:
    never a value together with an error. *)
Theorem run_result_shape p value m value' err m' :
  run p value m = (Returns (value', err), m') ->
  (err = None
   /\ exists exec,
        execute p = Some exec
        /\ calls m' = calls m ++ map HookCalled (preHooks p)
                        ++ [ExecuteCalled (Some exec)]
                        ++ map HookCalled (postHooks p))
  \/ (exists e, err = Some e /\ value' = VNil).
Proof.
  intros Hrun. rewrite run_stages in Hrun.
  destruct (processHooks p value (preHooks p) m) as [[[value1 [e|]]|pv] m1] eqn:Hpre;
    try discriminate.
  - injection Hrun as <- <- <-. right. exists e. split; [reflexivity|].
    exact (processHooks_error_value p _ _ _ _ _ _ Hpre).
  - destruct (processHooks_nil_error_inv p _ _ _ _ _ Hpre) as (_ & Hm1).
    destruct (execute p) as [exec|] eqn:Hexec; [|discriminate].
    cbv zeta in Hrun.
    destruct (exec value1 (world m1)) as [[[value2 [e|]]|pv] w2]; cbn [fst snd] in Hrun;
      try discriminate.
    + injection Hrun as <- <- <-. right. now exists e.
    + destruct (processHooks p value2 (postHooks p) _) as [[[value3 [e|]]|pv] m3] eqn:Hpost;
        try discriminate; injection Hrun as <- <- <-.
      * right. exists e. split; [reflexivity|].
        exact (processHooks_error_value p _ _ _ _ _ _ Hpost).
      * left. split; [reflexivity|]. exists exec. split; [reflexivity|].
        destruct (processHooks_nil_error_inv p _ _ _ _ _ Hpost) as (_ & ->).
        rewrite Hm1. unfold after. cbn [calls world].
        now rewrite <- !app_assoc.
Qed.

(** X6: when every pre-hook, execute and every post-hook return nil errors,
    each fed the value the previous one returned, run returns the value of
    the last post-hook with a nil error, after calling all of them in the
    order pre-hooks, execute, post-hooks. *)
Theorem run_all_stages_succeed p exec value m value1 w1 value2 w2 value3 w3 :
  execute p = Some exec ->
  hooksPass (preHooks p) value (world m) = Some (value1, w1) ->
  exec value1 w1 = (Returns (value2, None), w2) ->
  hooksPass (postHooks p) value2 w2 = Some (value3, w3) ->
  run p value m =
    (Returns (value3, None),
     after m w3 (map HookCalled (preHooks p)
                 ++ [ExecuteCalled (Some exec)]
                 ++ map HookCalled (postHooks p))).
Proof. apply run_pass_through. Qed.

(** X7: when the pre-hooks and execute return nil errors and post-hook k+1
    is the first post-hook to return an error e, run returns handleError's
    output for e, that is (nil, e); the post-hooks behind it are not
    called. *)
Theorem run_postHook_error_is_handled
    p exec (k : nat) body value m value1 w1 value2 w2 valuek wk value' e w' :
  execute p = Some exec ->
  hooksPass (preHooks p) value (world m) = Some (value1, w1) ->
  exec value1 w1 = (Returns (value2, None), w2) ->
  nth_error (postHooks p) k = Some (Some body) ->
  hooksPass (firstn k (postHooks p)) value2 w2 = Some (valuek, wk) ->
  body valuek wk = (Returns (value', Some e), w') ->
  run p value m =
    (Returns (VNil, Some e),
     after m w' (map HookCalled (preHooks p)
                 ++ [ExecuteCalled (Some exec)]
                 ++ map HookCalled (firstn (S k) (postHooks p)))).
Proof. apply run_postHook_error. Qed.

(** X8: whatever the hooks do, the calls run makes are: an initial segment
    of the pre-hooks, then at most one call of execute, then an initial
    segment of the post-hooks; execute is called only after all the
    pre-hooks, and post-hooks only after execute. *)
Theorem run_call_order p value m :
  exists (i j : nat) (executed : bool),
    (i <= List.length (preHooks p))%nat
    /\ (j <= List.length (postHooks p))%nat
    /\ calls (snd (run p value m)) =
         calls m ++ map HookCalled (firstn i (preHooks p))
           ++ (if executed
               then ExecuteCalled (execute p)
                      :: map HookCalled (firstn j (postHooks p))
               else [])
    /\ (executed = true ->
        i = List.length (preHooks p) /\ execute p <> None).
Proof.
  rewrite run_stages.
  destruct (processHooks_calls_prefix p (preHooks p) value m) as (i & Hi & Ei).
  destruct (processHooks p value (preHooks p) m) as [[[value1 [e|]]|pv] m1] eqn:Hpre;
    cbn [snd] in Ei.
  - exists i, 0%nat, false. cbn [snd]. rewrite app_nil_r.
    repeat split; try lia; try discriminate. exact Ei.
  - destruct (processHooks_nil_error_inv p _ _ _ _ _ Hpre) as (_ & Hm1).
    destruct (execute p) as [exec|] eqn:Hexec.
    + cbv zeta.
      set (m2 := after m1 (snd (exec value1 (world m1))) [ExecuteCalled (Some exec)]).
      assert (Hm2 : calls m2 = calls m ++ map HookCalled (preHooks p)
                                ++ [ExecuteCalled (Some exec)]).
      { unfold m2. rewrite Hm1. unfold after. cbn [calls].
        now rewrite <- app_assoc. }
      destruct (fst (exec value1 (world m1))) as [[value2 [e|]]|pv].
      * exists (List.length (preHooks p)), 0%nat, true. cbn [snd firstn map].
        rewrite firstn_all. repeat split; try lia; try discriminate. exact Hm2.
      * destruct (processHooks_calls_prefix p (postHooks p) value2 m2) as (j & Hj & Ej).
        exists (List.length (preHooks p)), j, true.
        rewrite snd_rethrow, Ej, Hm2, firstn_all.
        repeat split; try lia; try discriminate.
        now rewrite <- !app_assoc.
      * exists (List.length (preHooks p)), 0%nat, true. cbn [snd firstn map].
        rewrite firstn_all. repeat split; try lia; try discriminate. exact Hm2.
    + exists (List.length (preHooks p)), 0%nat, false. cbn [snd].
      rewrite firstn_all, app_nil_r, Hm1.
      repeat split; try lia; discriminate.
  - exists i, 0%nat, false. cbn [snd]. rewrite app_nil_r.
    repeat split; try lia; try discriminate. exact Ei.
Qed.

(** X15: when every pre-hook returns a nil error and execute panics, run
    panics with the same value: handleError is not applied and no post-hook
    is called. *)
Theorem run_execute_panic_propagates p exec value m value1 w1 pv w2 :
  execute p = Some exec ->
  hooksPass (preHooks p) value (world m) = Some (value1, w1) ->
  exec value1 w1 = (Panics pv, w2) ->
  run p value m =
    (Panics pv,
     after m w2 (map HookCalled (preHooks p) ++ [ExecuteCalled (Some exec)])).
Proof.
  intros Hexec Hpre Hbody.
  rewrite run_stages, (processHooks_pass p _ _ _ _ _ Hpre), Hexec.
  cbn [world after]. rewrite Hbody. cbv zeta. cbn [fst snd].
  fold (after m w1 (map HookCalled (preHooks p))).
  now rewrite after_after.
Qed.

(** X12: running a Phase to which a pre-hook was prepended is calling that
    hook on the input and then, when it returns a nil error, running the
    Phase as it was on the hook's value; when it returns an error, the result
    is handleError's output and nothing else is called. *)
Theorem run_prependPreHook p hook value m :
  run (prependPreHook p hook) value m =
    ('(value1, err) <- call HookCalled hook value ;;
     match err with
     | Some _ => ret (handleError p err)
     | None => run p value1
     end) m.
Proof.
  unfold run at 1, bind. cbn [prependPreHook preHooks execute postHooks Name prependHook app].
  cbn [processHooks]. unfold bind at 1.
  destruct (call HookCalled hook value m) as [[[value1 [e|]]|pv] m1]; try reflexivity.
  unfold run, bind.
  rewrite (processHooks_receiver (prependPreHook p hook) p (preHooks p)).
  destruct (processHooks p value1 (preHooks p) m1) as [[[value2 [e|]]|pv] m2];
    try reflexivity.
  destruct (execute p) as [exec|]; [|reflexivity].
  destruct (call ExecuteCalled (Some exec) value2 m2) as [[[value3 [e|]]|pv] m3];
    try reflexivity.
  now rewrite (processHooks_receiver (prependPreHook p hook) p (postHooks p)).
Qed.

(** Appending a hook to the contents of the post-hook chain. *)
Lemma run_with_appended_postHook p hook value m :
  run {| Name := Name p;
         preHooks := preHooks p;
         execute := execute p;
         postHooks := appendHook (postHooks p) hook |} value m =
    ('(value1, err) <- run p value ;;
     match err with
     | Some _ => ret (value1, err)
     | None =>
         '(value2, err2) <- call HookCalled hook value1 ;;
         match err2 with
         | Some _ => ret (handleError p err2)
         | None => ret (value2, None)
         end
     end) m.
Proof.
  set (p' := {| Name := Name p; preHooks := preHooks p; execute := execute p;
                postHooks := appendHook (postHooks p) hook |}).
  unfold bind at 1. rewrite !run_stages.
  change (preHooks p') with (preHooks p). change (execute p') with (execute p).
  change (postHooks p') with (appendHook (postHooks p) hook).
  change (Name p') with (Name p).
  rewrite (processHooks_receiver p' p (preHooks p)).
  destruct (processHooks p value (preHooks p) m) as [[[value1 [e|]]|pv] m1];
    try reflexivity.
  destruct (execute p) as [exec|]; [|reflexivity].
  cbv zeta.
  destruct (fst (exec value1 (world m1))) as [[value2 [e|]]|pv]; try reflexivity.
  rewrite (processHooks_receiver p' p).
  unfold appendHook. rewrite processHooks_app.
  destruct (processHooks p value2 (postHooks p) _) as [[[value3 [e|]]|pv] m3];
    try reflexivity.
  cbn [processHooks]. unfold bind, ret.
  destruct (call HookCalled hook value3 m3) as [[[value4 [e|]]|pv] m4]; reflexivity.
Qed.

End MorePhaseProperties.

(* ================================================================== *)
(** ** The further properties, at the fixtures *)
(* ================================================================== *)

(** A nil func as second hook. *)
Lemma processHooks_nil_hook_panics_witness :
  nth_error (nilHookChain (W := unit) 64) 1 = Some None
  /\ hooksPass (firstn 1 (nilHookChain 64)) (VInt 0) tt = Some (VInt 1, tt)
  /\ processHooks (W := unit) zeroPhase (VInt 0) (nilHookChain 64) (start tt) =
       (Panics NilDereference,
        after (start tt) tt (map HookCalled (firstn 1 (nilHookChain 64)))).
Proof.
  assert (H1 : nth_error (nilHookChain (W := unit) 64) 1 = Some None) by reflexivity.
  assert (H2 : hooksPass (firstn 1 (nilHookChain (W := unit) 64)) (VInt 0) tt
               = Some (VInt 1, tt)) by reflexivity.
  split; [exact H1|]. split; [exact H2|].
  exact (processHooks_nil_hook_panics zeroPhase (nilHookChain 64) 1 (VInt 0)
           (start tt) (VInt 1) tt H1 H2).
Defined.

(** The hooks of TestProcessHooksPass on a string: the first one panics. *)
Lemma processHooks_hook_panic_propagates_witness :
  nth_error (passHooks (W := unit) 64) 0 = Some (Some (addHook 64 1))
  /\ hooksPass (firstn 0 (passHooks (W := unit) 64)) (VString "x") tt
       = Some (VString "x", tt)
  /\ addHook (W := unit) 64 1 (VString "x") tt
       = (Panics (TypeAssertion (VString "x")), tt)
  /\ processHooks (W := unit) zeroPhase (VString "x") (passHooks 64) (start tt) =
       (Panics (TypeAssertion (VString "x")),
        after (start tt) tt (map HookCalled (firstn 1 (passHooks 64)))).
Proof.
  assert (H1 : nth_error (passHooks (W := unit) 64) 0
               = Some (Some (addHook 64 1))) by reflexivity.
  assert (H2 : hooksPass (firstn 0 (passHooks (W := unit) 64)) (VString "x") tt
               = Some (VString "x", tt)) by reflexivity.
  assert (H3 : addHook (W := unit) 64 1 (VString "x") tt
               = (Panics (TypeAssertion (VString "x")), tt)) by reflexivity.
  split; [exact H1|]. split; [exact H2|]. split; [exact H3|].
  exact (processHooks_hook_panic_propagates zeroPhase (passHooks 64) 0
           (addHook 64 1) (VString "x") (start tt) (VString "x") tt
           (TypeAssertion (VString "x")) tt H1 H2 H3).
Defined.

(** TestProcessHooksPass: a nil error, so all three hooks were called. *)
Lemma processHooks_result_shape_witness :
  processHooks (W := unit) zeroPhase (VInt 0) (passHooks 64) (start tt) =
    (Returns (VInt 6, None), after (start tt) tt (map HookCalled (passHooks 64)))
  /\ hooksPass (passHooks (W := unit) 64) (VInt 0) tt = Some (VInt 6, tt)
  /\ calls (after (start tt) tt (map HookCalled (passHooks (W := unit) 64)))
     = calls (start tt) ++ map HookCalled (passHooks 64).
Proof.
  assert (H : processHooks (W := unit) zeroPhase (VInt 0) (passHooks 64) (start tt) =
                (Returns (VInt 6, None),
                 after (start tt) tt (map HookCalled (passHooks 64))))
    by reflexivity.
  split; [exact H|].
  destruct (processHooks_result_shape zeroPhase (passHooks 64) (VInt 0) (start tt)
              (VInt 6) None _ H)
    as [(_ & Hpass & Hcalls)|(e & He & _)]; [|discriminate He].
  split; [exact Hpass | exact Hcalls].
Defined.

(** A run that returns a nil error has called everything. *)
Lemma run_result_shape_witness :
  run (W := unit) (sumPhase 64) (VInt 0) (start tt) =
    (Returns (VInt 12, None),
     after (start tt) tt
       (map HookCalled (preHooks (sumPhase 64))
        ++ [ExecuteCalled (Some identityExecute)]
        ++ map HookCalled (postHooks (sumPhase 64))))
  /\ exists exec,
       execute (sumPhase (W := unit) 64) = Some exec
       /\ calls (after (start tt) tt
                   (map HookCalled (preHooks (sumPhase 64))
                    ++ [ExecuteCalled (Some identityExecute)]
                    ++ map HookCalled (postHooks (sumPhase 64))))
          = calls (start tt) ++ map HookCalled (preHooks (sumPhase 64))
              ++ [ExecuteCalled (Some exec)]
              ++ map HookCalled (postHooks (sumPhase 64)).
Proof.
  assert (H : run (W := unit) (sumPhase 64) (VInt 0) (start tt) =
                (Returns (VInt 12, None),
                 after (start tt) tt
                   (map HookCalled (preHooks (sumPhase 64))
                    ++ [ExecuteCalled (Some identityExecute)]
                    ++ map HookCalled (postHooks (sumPhase 64)))))
    by reflexivity.
  split; [exact H|].
  destruct (run_result_shape (sumPhase 64) (VInt 0) (start tt) (VInt 12) None _ H)
    as [(_ & Hcalls)|(e & He & _)]; [exact Hcalls | discriminate He].
Defined.

(** Three passing pre-hooks, the identity, three passing post-hooks. *)
Lemma run_all_stages_succeed_witness :
  execute (sumPhase (W := unit) 64) = Some identityExecute
  /\ hooksPass (preHooks (sumPhase 64)) (VInt 0) tt = Some (VInt 6, tt)
  /\ identityExecute (W := unit) (VInt 6) tt = (Returns (VInt 6, None), tt)
  /\ hooksPass (postHooks (sumPhase 64)) (VInt 6) tt = Some (VInt 12, tt)
  /\ run (W := unit) (sumPhase 64) (VInt 0) (start tt) =
       (Returns (VInt 12, None),
        after (start tt) tt
          (map HookCalled (preHooks (sumPhase 64))
           ++ [ExecuteCalled (Some identityExecute)]
           ++ map HookCalled (postHooks (sumPhase 64)))).
Proof.
  assert (H1 : execute (sumPhase (W := unit) 64) = Some identityExecute)
    by reflexivity.
  assert (H2 : hooksPass (preHooks (sumPhase (W := unit) 64)) (VInt 0) tt
               = Some (VInt 6, tt)) by reflexivity.
  assert (H3 : identityExecute (W := unit) (VInt 6) tt
               = (Returns (VInt 6, None), tt)) by reflexivity.
  assert (H4 : hooksPass (postHooks (sumPhase (W := unit) 64)) (VInt 6) tt
               = Some (VInt 12, tt)) by reflexivity.
  split; [exact H1|]. split; [exact H2|]. split; [exact H3|]. split; [exact H4|].
  exact (run_all_stages_succeed (sumPhase 64) identityExecute (VInt 0) (start tt)
           (VInt 6) tt (VInt 6) tt (VInt 12) tt H1 H2 H3 H4).
Defined.

(** The hooks of TestProcessHooksFail as post-hooks. *)
Lemma run_postHook_error_is_handled_witness :
  execute (failingPostPhase (W := unit) 64) = Some identityExecute
  /\ hooksPass (preHooks (failingPostPhase (W := unit) 64)) (VInt 0) tt
       = Some (VInt 0, tt)
  /\ identityExecute (W := unit) (VInt 0) tt = (Returns (VInt 0, None), tt)
  /\ nth_error (postHooks (failingPostPhase (W := unit) 64)) 1
       = Some (Some (addFailHook 64 2))
  /\ hooksPass (firstn 1 (postHooks (failingPostPhase 64))) (VInt 0) tt
       = Some (VInt 1, tt)
  /\ addFailHook (W := unit) 64 2 (VInt 1) tt = (Returns (VInt 3, Some AnError), tt)
  /\ run (W := unit) (failingPostPhase 64) (VInt 0) (start tt) =
       (Returns (VNil, Some AnError),
        after (start tt) tt
          (map HookCalled (preHooks (failingPostPhase 64))
           ++ [ExecuteCalled (Some identityExecute)]
           ++ map HookCalled (firstn 2 (postHooks (failingPostPhase 64))))).
Proof.
  assert (H1 : execute (failingPostPhase (W := unit) 64) = Some identityExecute)
    by reflexivity.
  assert (H2 : hooksPass (preHooks (failingPostPhase (W := unit) 64)) (VInt 0) tt
               = Some (VInt 0, tt)) by reflexivity.
  assert (H3 : identityExecute (W := unit) (VInt 0) tt
               = (Returns (VInt 0, None), tt)) by reflexivity.
  assert (H4 : nth_error (postHooks (failingPostPhase (W := unit) 64)) 1
               = Some (Some (addFailHook 64 2))) by reflexivity.
  assert (H5 : hooksPass (firstn 1 (postHooks (failingPostPhase (W := unit) 64)))
                 (VInt 0) tt = Some (VInt 1, tt)) by reflexivity.
  assert (H6 : addFailHook (W := unit) 64 2 (VInt 1) tt
               = (Returns (VInt 3, Some AnError), tt)) by reflexivity.
  split; [exact H1|]. split; [exact H2|]. split; [exact H3|]. split; [exact H4|].
  split; [exact H5|]. split; [exact H6|].
  exact (run_postHook_error_is_handled (failingPostPhase 64) identityExecute 1
           (addFailHook 64 2) (VInt 0) (start tt) (VInt 0) tt (VInt 0) tt
           (VInt 1) tt (VInt 3) AnError tt H1 H2 H3 H4 H5 H6).
Defined.

(** An execute that asserts an int, run on struct{}{}. *)
Lemma run_execute_panic_propagates_witness :
  execute (addExecutePhase (W := unit) 64) = Some (addHook 64 1)
  /\ hooksPass (preHooks (addExecutePhase (W := unit) 64)) VStruct tt
       = Some (VStruct, tt)
  /\ addHook (W := unit) 64 1 VStruct tt = (Panics (TypeAssertion VStruct), tt)
  /\ run (W := unit) (addExecutePhase 64) VStruct (start tt) =
       (Panics (TypeAssertion VStruct),
        after (start tt) tt
          (map HookCalled (preHooks (addExecutePhase 64))
           ++ [ExecuteCalled (Some (addHook 64 1))])).
Proof.
  assert (H1 : execute (addExecutePhase (W := unit) 64) = Some (addHook 64 1))
    by reflexivity.
  assert (H2 : hooksPass (preHooks (addExecutePhase (W := unit) 64)) VStruct tt
               = Some (VStruct, tt)) by reflexivity.
  assert (H3 : addHook (W := unit) 64 1 VStruct tt
               = (Panics (TypeAssertion VStruct), tt)) by reflexivity.
  split; [exact H1|]. split; [exact H2|]. split; [exact H3|].
  exact (run_execute_panic_propagates (addExecutePhase 64) (addHook 64 1) VStruct
           (start tt) VStruct tt (TypeAssertion VStruct) tt H1 H2 H3).
Defined.

(** The chain of TestAddPreHooks, before its last append. *)
Lemma appendHook_puts_hook_last_witness :
  (0 < List.length (buildChain (W := unit)
                      [OpAppend (Some (constHook 1)); OpPrepend (Some (constHook 0))]))%nat
  /\ nth_error
       (appendHook
          (buildChain (W := unit)
             [OpAppend (Some (constHook 1)); OpPrepend (Some (constHook 0))])
          (Some (constHook 2))) 0
     = nth_error
         (buildChain (W := unit)
            [OpAppend (Some (constHook 1)); OpPrepend (Some (constHook 0))]) 0.
Proof.
  assert (H : (0 < List.length (buildChain (W := unit)
                      [OpAppend (Some (constHook 1)); OpPrepend (Some (constHook 0))]))%nat)
    by (simpl; lia).
  split; [exact H|].
  exact (proj1 (proj2 (proj2 (appendHook_puts_hook_last
                                [OpAppend (Some (constHook 1));
                                 OpPrepend (Some (constHook 0))]
                                (Some (constHook 2))))) 0%nat H).
Defined.

(** val = 2^62 on a 64-bit target. *)
Lemma run_testPhase_wraps_witness :
  2 <= 64
  /\ GoInt.minInt 64 <= 2 ^ 62 <= GoInt.maxInt 64
  /\ ~ (- 2 ^ (64 - 2) <= 2 ^ 62 < 2 ^ (64 - 2))
  /\ fst (run (W := unit) (testPhase 64 (2 ^ 62)) (VInt (2 ^ 62)) (start tt))
     = Returns (VNil, Some AnError).
Proof.
  assert (H1 : 2 <= 64) by lia.
  assert (H2 : GoInt.minInt 64 <= 2 ^ 62 <= GoInt.maxInt 64)
    by (unfold GoInt.minInt, GoInt.maxInt; simpl; lia).
  assert (H3 : ~ (- 2 ^ (64 - 2) <= 2 ^ 62 < 2 ^ (64 - 2))) by (simpl; lia).
  split; [exact H1|]. split; [exact H2|]. split; [exact H3|].
  exact (run_testPhase_wraps 64 H1 (2 ^ 62) (start tt) H2 H3).
Defined.

(* ================================================================== *)
(** ** Slices in memory: append, the slice literal, the two hook methods *)
(* ================================================================== *)

Section ListFacts.
Context {A : Type}.
Implicit Types (l p r e : list A).

Lemma setNth_length l : forall (i : nat) (x : A),
  List.length (Mem.setNth l i x) = List.length l.
Proof. induction l as [|y l IH]; intros [|i] x; simpl; auto. Qed.

Lemma setNth_app_length p r (y x : A) :
  Mem.setNth (p ++ y :: r) (List.length p) x = p ++ x :: r.
Proof. induction p as [|z p IH]; simpl; congruence. Qed.

Lemma nth_setNth_eq l : forall (i : nat) (x d : A),
  (i < List.length l)%nat -> nth i (Mem.setNth l i x) d = x.
Proof.
  induction l as [|y l IH]; intros [|i] x d Hi; simpl in *; try lia; auto.
  apply IH. lia.
Qed.

Lemma nth_setNth_ne l : forall (i j : nat) (x d : A),
  i <> j -> nth j (Mem.setNth l i x) d = nth j l d.
Proof.
  induction l as [|y l IH]; intros [|i] [|j] x d Hij; simpl; auto; try congruence.
Qed.

Lemma setNth_nth_id l : forall (i : nat) (d : A),
  Mem.setNth l i (nth i l d) = l.
Proof. induction l as [|y l IH]; intros [|i] d; simpl; f_equal; auto. Qed.

Lemma skipn_length_app p l : skipn (List.length p) (p ++ l) = l.
Proof. induction p; simpl; auto. Qed.

Lemma firstn_length_app e l : firstn (List.length e) (e ++ l) = e.
Proof. induction e; simpl; f_equal; auto. Qed.

End ListFacts.

Section SliceProperties.
Context {W : Type}.
Variable growCap : nat -> nat -> nat.
Implicit Types (h : Mem.heap W) (s t : Mem.slice).
Implicit Types (xs c : list (PhaseHook W)) (x : PhaseHook W).

Lemma writeCells_length xs : forall c (i : nat),
  List.length (Mem.writeCells c i xs) = List.length c.
Proof.
  induction xs as [|x xs IH]; intros c i; simpl; [reflexivity|].
  now rewrite IH, setNth_length.
Qed.

Lemma writeCells_app xs : forall (p r : list (PhaseHook W)),
  (List.length xs <= List.length r)%nat ->
  Mem.writeCells (p ++ r) (List.length p) xs = p ++ xs ++ skipn (List.length xs) r.
Proof.
  induction xs as [|x xs IH]; intros p r Hlen; [reflexivity|].
  destruct r as [|y r]; simpl in Hlen; [lia|].
  cbn [Mem.writeCells]. rewrite setNth_app_length.
  change (p ++ x :: r) with (p ++ [x] ++ r). rewrite app_assoc.
  replace (S (List.length p)) with (List.length (p ++ [x]))
    by (rewrite length_app; simpl; lia).
  rewrite IH by lia. now rewrite <- app_assoc.
Qed.

(** A valid slice with room cuts its array into the cells before it, its
    elements, and the cells behind them. *)
Lemma cells_decompose h s :
  validSlice h s -> (0 < Mem.cap s)%nat ->
  exists p e r : list (PhaseHook W),
    Mem.cells h (Mem.base s) = p ++ e ++ r
    /\ List.length p = Mem.offset s
    /\ List.length e = Mem.len s
    /\ (Mem.cap s <= Mem.len s + List.length r)%nat
    /\ Mem.elements h s = e
    /\ (Mem.base s < List.length h)%nat.
Proof.
  intros (Hlen & [Hcap|(Hbase & Hin)]) Hpos; [lia|].
  set (c := Mem.cells h (Mem.base s)) in *.
  exists (firstn (Mem.offset s) c),
         (firstn (Mem.len s) (skipn (Mem.offset s) c)),
         (skipn (Mem.len s) (skipn (Mem.offset s) c)).
  rewrite !firstn_skipn, !length_firstn, !length_skipn.
  repeat split; lia.
Qed.

Lemma elements_length h s :
  validSlice h s -> List.length (Mem.elements h s) = Mem.len s.
Proof.
  intros Hv. destruct (Nat.eq_dec (Mem.cap s) 0) as [Hz|Hnz].
  - destruct Hv as (Hlen & _). unfold Mem.elements.
    replace (Mem.len s) with 0%nat by lia. reflexivity.
  - destruct (cells_decompose h s Hv) as (p & e & r & _ & _ & He & _ & <- & _);
      [lia | exact He].
Qed.

Lemma elements_empty h s : Mem.len s = 0%nat -> Mem.elements h s = [].
Proof. intros H. unfold Mem.elements. now rewrite H. Qed.

(** Allocation leaves the slices that were there as they are. *)
Lemma validSlice_alloc h c t : validSlice h t -> validSlice (h ++ [c]) t.
Proof.
  intros (Hlen & [Hcap|(Hbase & Hin)]); split; auto. right.
  unfold Mem.cells in *. rewrite length_app, app_nth1 by exact Hbase.
  simpl. lia.
Qed.

Lemma elements_alloc h c t :
  validSlice h t -> Mem.elements (h ++ [c]) t = Mem.elements h t.
Proof.
  intros (Hlen & [Hcap|(Hbase & Hin)]).
  - rewrite !elements_empty by lia. reflexivity.
  - unfold Mem.elements, Mem.cells. now rewrite app_nth1 by exact Hbase.
Qed.

Lemma cells_alloc_new h c : Mem.cells (h ++ [c]) (List.length h) = c.
Proof. unfold Mem.cells. apply nth_middle. Qed.

(** *** append *)

Lemma append_elements h s xs :
  validSlice h s ->
  Mem.elements (fst (Mem.append growCap h s xs)) (snd (Mem.append growCap h s xs))
  = Mem.elements h s ++ xs.
Proof.
  intros Hv. unfold Mem.append. cbv zeta.
  destruct (Nat.leb_spec (Mem.len s + List.length xs) (Mem.cap s)) as [Hfit|Hgrow];
    cbn [fst snd].
  - destruct (Nat.eq_dec (Mem.cap s) 0) as [Hz|Hnz].
    + assert (Hxs : xs = []) by (destruct xs; simpl in Hfit; [reflexivity | lia]).
      subst xs. rewrite !elements_empty by (simpl; lia). reflexivity.
    + destruct (cells_decompose h s Hv) as (p & e & r & Hc & Hp & He & Hr & Hel & Hb);
        [lia|].
      rewrite Hel.
      unfold Mem.elements at 1, Mem.store, Mem.cells at 1. cbn [Mem.base Mem.offset Mem.len].
      rewrite nth_setNth_eq by exact Hb.
      rewrite Hc, app_assoc.
      replace (Mem.offset s + Mem.len s)%nat with (List.length (p ++ e))
        by (rewrite length_app; lia).
      rewrite writeCells_app by lia.
      rewrite <- app_assoc, <- Hp, skipn_length_app.
      rewrite app_assoc, <- He, <- length_app.
      apply firstn_length_app.
  - unfold Mem.elements at 1. cbn [Mem.base Mem.offset Mem.len].
    rewrite cells_alloc_new. cbn [skipn].
    rewrite app_assoc.
    replace (Mem.len s + List.length xs)%nat
      with (List.length (Mem.elements h s ++ xs))
      by (rewrite length_app, (elements_length h s Hv); reflexivity).
    apply firstn_length_app.
Qed.

Lemma append_frame h s t xs :
  validSlice h t -> disjoint s t ->
  Mem.elements (fst (Mem.append growCap h s xs)) t = Mem.elements h t.
Proof.
  intros Ht Hd. unfold Mem.append. cbv zeta.
  destruct (Nat.leb_spec (Mem.len s + List.length xs) (Mem.cap s)) as [Hfit|Hgrow];
    cbn [fst snd].
  - destruct Hd as [Hs|[Hz|Hne]].
    + assert (Hxs : xs = []) by (destruct xs; simpl in Hfit; [reflexivity | lia]).
      subst xs. unfold Mem.store. cbn [Mem.writeCells]. unfold Mem.cells.
      now rewrite setNth_nth_id.
    + destruct Ht as (Hlen & _). rewrite !elements_empty by lia. reflexivity.
    + unfold Mem.elements, Mem.store, Mem.cells. now rewrite nth_setNth_ne.
  - now apply elements_alloc.
Qed.

Lemma store_length h (a i : nat) xs :
  List.length (Mem.store h a i xs) = List.length h.
Proof. unfold Mem.store. apply setNth_length. Qed.

Lemma store_cells_length h (a i b : nat) xs :
  List.length (Mem.cells (Mem.store h a i xs) b) = List.length (Mem.cells h b).
Proof.
  unfold Mem.store, Mem.cells. destruct (Nat.eq_dec a b) as [<-|Hne].
  - destruct (Nat.lt_ge_cases a (List.length h)) as [Hlt|Hge].
    + rewrite nth_setNth_eq by exact Hlt. apply writeCells_length.
    + rewrite !nth_overflow; rewrite ?setNth_length; auto.
  - now rewrite nth_setNth_ne.
Qed.

Lemma append_valid_other h s t xs :
  validSlice h t -> validSlice (fst (Mem.append growCap h s xs)) t.
Proof.
  intros Ht. unfold Mem.append. cbv zeta.
  destruct (Mem.len s + List.length xs <=? Mem.cap s)%nat; cbn [fst].
  - destruct Ht as (Hlen & [Hcap|(Hbase & Hin)]); split; auto. right.
    now rewrite store_length, store_cells_length.
  - now apply validSlice_alloc.
Qed.

Lemma append_valid h s xs :
  validSlice h s ->
  validSlice (fst (Mem.append growCap h s xs)) (snd (Mem.append growCap h s xs)).
Proof.
  intros Hv. unfold Mem.append. cbv zeta.
  destruct (Nat.leb_spec (Mem.len s + List.length xs) (Mem.cap s)) as [Hfit|Hgrow];
    cbn [fst snd].
  - destruct Hv as (Hlen & [Hcap|(Hbase & Hin)]); split;
      cbn [Mem.base Mem.offset Mem.len Mem.cap]; auto. right.
    now rewrite store_length, store_cells_length.
  - split; cbn [Mem.base Mem.offset Mem.len Mem.cap]; [lia|]. right.
    rewrite cells_alloc_new, !length_app, repeat_length, (elements_length h s Hv).
    simpl. lia.
Qed.

Lemma append_disjoint h s t xs :
  validSlice h t -> disjoint s t ->
  disjoint (snd (Mem.append growCap h s xs)) t.
Proof.
  intros Ht Hd. unfold Mem.append. cbv zeta.
  destruct (Mem.len s + List.length xs <=? Mem.cap s)%nat; cbn [snd].
  - exact Hd.
  - destruct Ht as (Hlen & [Hcap|(Hbase & Hin)]); [right; left; exact Hcap|].
    right. right. cbn [Mem.base]. lia.
Qed.

End SliceProperties.

Section HookMethodProperties.
Context {W : Type}.
Variable growCap : nat -> nat -> nat.
Implicit Types (h : Mem.heap W) (s t : Mem.slice) (x hook : PhaseHook W).
Implicit Types (hp : Mem.heap W * Mem.Phase W).

Lemma disjoint_sym s t : disjoint s t -> disjoint t s.
Proof. unfold disjoint. intros [H|[H|H]]; auto. Qed.

Lemma literal_valid h (xs : list (PhaseHook W)) :
  validSlice (fst (Mem.sliceLiteral h xs)) (snd (Mem.sliceLiteral h xs)).
Proof.
  unfold Mem.sliceLiteral, validSlice. cbn [fst snd Mem.base Mem.offset Mem.len Mem.cap].
  split; [lia|]. right. rewrite cells_alloc_new, length_app. simpl. lia.
Qed.

Lemma literal_elements h (xs : list (PhaseHook W)) :
  Mem.elements (fst (Mem.sliceLiteral h xs)) (snd (Mem.sliceLiteral h xs)) = xs.
Proof.
  unfold Mem.sliceLiteral, Mem.elements. cbn [fst snd Mem.base Mem.offset Mem.len].
  rewrite cells_alloc_new. cbn [skipn]. apply firstn_all.
Qed.

Lemma literal_disjoint h (xs : list (PhaseHook W)) t :
  validSlice h t -> disjoint (snd (Mem.sliceLiteral h xs)) t.
Proof.
  intros (Hlen & [Hcap|(Hbase & Hin)]); [right; left; exact Hcap|].
  right. right. cbn [Mem.sliceLiteral snd Mem.base]. lia.
Qed.

(** *** prependHook *)

Lemma prependHook_elements h s x :
  validSlice h s ->
  Mem.elements (fst (Mem.prependHook growCap h s x))
    (snd (Mem.prependHook growCap h s x))
  = prependHook (Mem.elements h s) x.
Proof.
  intros Hs. unfold Mem.prependHook.
  pose proof (literal_valid h [x]) as Hlit.
  pose proof (literal_elements h [x]) as Hel.
  destruct (Mem.sliceLiteral h [x]) as [h1 literal] eqn:E.
  assert (Eh : h1 = h ++ [[x]]) by (unfold Mem.sliceLiteral in E; congruence).
  cbn [fst snd] in Hlit, Hel.
  rewrite (append_elements growCap h1 literal _ Hlit), Hel, Eh.
  now rewrite (elements_alloc h [x] s Hs).
Qed.

Lemma prependHook_frame h s t x :
  validSlice h t ->
  Mem.elements (fst (Mem.prependHook growCap h s x)) t = Mem.elements h t.
Proof.
  intros Ht. unfold Mem.prependHook.
  pose proof (literal_disjoint h [x] t Ht) as Hd.
  destruct (Mem.sliceLiteral h [x]) as [h1 literal] eqn:E.
  assert (Eh : h1 = h ++ [[x]]) by (unfold Mem.sliceLiteral in E; congruence).
  cbn [snd] in Hd. subst h1.
  rewrite (append_frame growCap _ literal t _ (validSlice_alloc h [x] t Ht) Hd).
  now apply elements_alloc.
Qed.

Lemma prependHook_valid h s x :
  validSlice (fst (Mem.prependHook growCap h s x))
    (snd (Mem.prependHook growCap h s x)).
Proof.
  unfold Mem.prependHook.
  pose proof (literal_valid h [x]) as Hlit.
  destruct (Mem.sliceLiteral h [x]) as [h1 literal].
  now apply append_valid.
Qed.

Lemma prependHook_valid_other h s t x :
  validSlice h t -> validSlice (fst (Mem.prependHook growCap h s x)) t.
Proof.
  intros Ht. unfold Mem.prependHook.
  destruct (Mem.sliceLiteral h [x]) as [h1 literal] eqn:E.
  assert (Eh : h1 = h ++ [[x]]) by (unfold Mem.sliceLiteral in E; congruence).
  subst h1. apply append_valid_other. now apply validSlice_alloc.
Qed.

Lemma prependHook_disjoint h s t x :
  validSlice h t -> disjoint (snd (Mem.prependHook growCap h s x)) t.
Proof.
  intros Ht. unfold Mem.prependHook.
  pose proof (literal_disjoint h [x] t Ht) as Hd.
  destruct (Mem.sliceLiteral h [x]) as [h1 literal] eqn:E.
  assert (Eh : h1 = h ++ [[x]]) by (unfold Mem.sliceLiteral in E; congruence).
  cbn [snd] in Hd. subst h1.
  apply append_disjoint; [now apply validSlice_alloc | exact Hd].
Qed.

(** *** The four methods on a Phase *)

Lemma prependPreHook_contents hp hook :
  wellFormed hp ->
  Mem.view (Mem.prependPreHook growCap hp hook) = prependPreHook (Mem.view hp) hook.
Proof.
  intros (Hpre & Hpost). unfold Mem.prependPreHook, Mem.view, prependPreHook, Mem.contents.
  pose proof (prependHook_elements (fst hp) (Mem.preHooks (snd hp)) hook Hpre) as E1.
  pose proof (prependHook_frame (fst hp) (Mem.preHooks (snd hp))
                (Mem.postHooks (snd hp)) hook Hpost) as E2.
  destruct (Mem.prependHook growCap (fst hp) (Mem.preHooks (snd hp)) hook) as [h' s'].
  cbn [fst snd Mem.Name Mem.preHooks Mem.execute Mem.postHooks
       Name preHooks execute postHooks] in *.
  now rewrite E1, E2.
Qed.

Lemma prependPostHook_contents hp hook :
  wellFormed hp ->
  Mem.view (Mem.prependPostHook growCap hp hook) = prependPostHook (Mem.view hp) hook.
Proof.
  intros (Hpre & Hpost). unfold Mem.prependPostHook, Mem.view, prependPostHook, Mem.contents.
  pose proof (prependHook_elements (fst hp) (Mem.postHooks (snd hp)) hook Hpost) as E1.
  pose proof (prependHook_frame (fst hp) (Mem.postHooks (snd hp))
                (Mem.preHooks (snd hp)) hook Hpre) as E2.
  destruct (Mem.prependHook growCap (fst hp) (Mem.postHooks (snd hp)) hook) as [h' s'].
  cbn [fst snd Mem.Name Mem.preHooks Mem.execute Mem.postHooks
       Name preHooks execute postHooks] in *.
  now rewrite E1, E2.
Qed.

Lemma appendPreHook_target hp hook :
  wellFormed hp ->
  preHooks (Mem.view (Mem.appendPreHook growCap hp hook))
  = appendHook (preHooks (Mem.view hp)) hook.
Proof.
  intros (Hpre & Hpost). unfold Mem.appendPreHook, Mem.appendHook, Mem.view, Mem.contents.
  pose proof (append_elements growCap (fst hp) (Mem.preHooks (snd hp)) [hook] Hpre) as E1.
  destruct (Mem.append growCap (fst hp) (Mem.preHooks (snd hp)) [hook]) as [h' s'].
  exact E1.
Qed.

Lemma appendPostHook_target hp hook :
  wellFormed hp ->
  postHooks (Mem.view (Mem.appendPostHook growCap hp hook))
  = appendHook (postHooks (Mem.view hp)) hook.
Proof.
  intros (Hpre & Hpost). unfold Mem.appendPostHook, Mem.appendHook, Mem.view, Mem.contents.
  pose proof (append_elements growCap (fst hp) (Mem.postHooks (snd hp)) [hook] Hpost) as E1.
  destruct (Mem.append growCap (fst hp) (Mem.postHooks (snd hp)) [hook]) as [h' s'].
  exact E1.
Qed.

Lemma appendPreHook_frame hp hook :
  wellFormed hp -> separate hp ->
  postHooks (Mem.view (Mem.appendPreHook growCap hp hook)) = postHooks (Mem.view hp).
Proof.
  intros (Hpre & Hpost) Hsep.
  unfold Mem.appendPreHook, Mem.appendHook, Mem.view, Mem.contents.
  pose proof (append_frame growCap (fst hp) (Mem.preHooks (snd hp))
                (Mem.postHooks (snd hp)) [hook] Hpost Hsep) as E2.
  destruct (Mem.append growCap (fst hp) (Mem.preHooks (snd hp)) [hook]) as [h' s'].
  exact E2.
Qed.

Lemma appendPostHook_frame hp hook :
  wellFormed hp -> separate hp ->
  preHooks (Mem.view (Mem.appendPostHook growCap hp hook)) = preHooks (Mem.view hp).
Proof.
  intros (Hpre & Hpost) Hsep.
  unfold Mem.appendPostHook, Mem.appendHook, Mem.view, Mem.contents.
  pose proof (append_frame growCap (fst hp) (Mem.postHooks (snd hp))
                (Mem.preHooks (snd hp)) [hook] Hpre (disjoint_sym _ _ Hsep)) as E2.
  destruct (Mem.append growCap (fst hp) (Mem.postHooks (snd hp)) [hook]) as [h' s'].
  exact E2.
Qed.

Lemma appendPreHook_contents hp hook :
  wellFormed hp -> separate hp ->
  Mem.view (Mem.appendPreHook growCap hp hook)
  = withPreHooks (Mem.view hp) (appendHook (preHooks (Mem.view hp)) hook).
Proof.
  intros Hwf Hsep.
  pose proof (appendPreHook_target hp hook Hwf) as E1.
  pose proof (appendPreHook_frame hp hook Hwf Hsep) as E2.
  unfold withPreHooks. rewrite <- E1, <- E2.
  unfold Mem.appendPreHook, Mem.view, Mem.contents.
  now destruct (Mem.appendHook growCap (fst hp) (Mem.preHooks (snd hp)) hook).
Qed.

Lemma appendPostHook_contents hp hook :
  wellFormed hp -> separate hp ->
  Mem.view (Mem.appendPostHook growCap hp hook)
  = withPostHooks (Mem.view hp) (appendHook (postHooks (Mem.view hp)) hook).
Proof.
  intros Hwf Hsep.
  pose proof (appendPostHook_target hp hook Hwf) as E1.
  pose proof (appendPostHook_frame hp hook Hwf Hsep) as E2.
  unfold withPostHooks. rewrite <- E1, <- E2.
  unfold Mem.appendPostHook, Mem.view, Mem.contents.
  now destruct (Mem.appendHook growCap (fst hp) (Mem.postHooks (snd hp)) hook).
Qed.

(** The methods keep the chains valid; a prepend makes them separate, an
    append keeps them separate. *)
Lemma prependPreHook_invariant hp hook :
  wellFormed hp ->
  wellFormed (Mem.prependPreHook growCap hp hook)
  /\ separate (Mem.prependPreHook growCap hp hook).
Proof.
  intros (Hpre & Hpost). unfold wellFormed, separate, Mem.prependPreHook.
  pose proof (prependHook_valid (fst hp) (Mem.preHooks (snd hp)) hook) as V1.
  pose proof (prependHook_valid_other (fst hp) (Mem.preHooks (snd hp))
                (Mem.postHooks (snd hp)) hook Hpost) as V2.
  pose proof (prependHook_disjoint (fst hp) (Mem.preHooks (snd hp))
                (Mem.postHooks (snd hp)) hook Hpost) as D.
  destruct (Mem.prependHook growCap (fst hp) (Mem.preHooks (snd hp)) hook) as [h' s'].
  cbn [fst snd Mem.preHooks Mem.postHooks] in *. auto.
Qed.

Lemma prependPostHook_invariant hp hook :
  wellFormed hp ->
  wellFormed (Mem.prependPostHook growCap hp hook)
  /\ separate (Mem.prependPostHook growCap hp hook).
Proof.
  intros (Hpre & Hpost). unfold wellFormed, separate, Mem.prependPostHook.
  pose proof (prependHook_valid (fst hp) (Mem.postHooks (snd hp)) hook) as V1.
  pose proof (prependHook_valid_other (fst hp) (Mem.postHooks (snd hp))
                (Mem.preHooks (snd hp)) hook Hpre) as V2.
  pose proof (prependHook_disjoint (fst hp) (Mem.postHooks (snd hp))
                (Mem.preHooks (snd hp)) hook Hpre) as D.
  destruct (Mem.prependHook growCap (fst hp) (Mem.postHooks (snd hp)) hook) as [h' s'].
  cbn [fst snd Mem.preHooks Mem.postHooks] in *.
  split; [split; assumption | now apply disjoint_sym].
Qed.

Lemma appendPreHook_invariant hp hook :
  wellFormed hp -> separate hp ->
  wellFormed (Mem.appendPreHook growCap hp hook)
  /\ separate (Mem.appendPreHook growCap hp hook).
Proof.
  intros (Hpre & Hpost) Hsep.
  unfold wellFormed, separate, Mem.appendPreHook, Mem.appendHook in *.
  pose proof (append_valid growCap (fst hp) (Mem.preHooks (snd hp)) [hook] Hpre) as V1.
  pose proof (append_valid_other growCap (fst hp) (Mem.preHooks (snd hp))
                (Mem.postHooks (snd hp)) [hook] Hpost) as V2.
  pose proof (append_disjoint growCap (fst hp) (Mem.preHooks (snd hp))
                (Mem.postHooks (snd hp)) [hook] Hpost Hsep) as D.
  destruct (Mem.append growCap (fst hp) (Mem.preHooks (snd hp)) [hook]) as [h' s'].
  cbn [fst snd Mem.preHooks Mem.postHooks] in *. auto.
Qed.

Lemma appendPostHook_invariant hp hook :
  wellFormed hp -> separate hp ->
  wellFormed (Mem.appendPostHook growCap hp hook)
  /\ separate (Mem.appendPostHook growCap hp hook).
Proof.
  intros (Hpre & Hpost) Hsep.
  unfold wellFormed, separate, Mem.appendPostHook, Mem.appendHook in *.
  pose proof (append_valid growCap (fst hp) (Mem.postHooks (snd hp)) [hook] Hpost) as V1.
  pose proof (append_valid_other growCap (fst hp) (Mem.postHooks (snd hp))
                (Mem.preHooks (snd hp)) [hook] Hpre) as V2.
  pose proof (append_disjoint growCap (fst hp) (Mem.postHooks (snd hp))
                (Mem.preHooks (snd hp)) [hook] Hpre (disjoint_sym _ _ Hsep)) as D.
  destruct (Mem.append growCap (fst hp) (Mem.postHooks (snd hp)) [hook]) as [h' s'].
  cbn [fst snd Mem.preHooks Mem.postHooks] in *.
  split; [split; assumption | now apply disjoint_sym].
Qed.

(** Every Phase built from [Phase{}] by the four methods is well formed,
    with separate chains. *)
Lemma buildPhase_invariant (ops : list (attachOp W)) :
  wellFormed (buildPhase growCap ops) /\ separate (buildPhase growCap ops).
Proof.
  unfold buildPhase.
  assert (H0 : wellFormed (W := W) Mem.zero /\ separate (W := W) Mem.zero).
  { unfold wellFormed, separate, validSlice, disjoint. simpl. auto. }
  revert H0. generalize (@Mem.zero W).
  induction ops as [|op ops IH]; intros hp (Hwf & Hsep); [now split|].
  simpl. apply IH. destruct op as [hook|hook|hook|hook]; simpl.
  - now apply prependPreHook_invariant.
  - now apply appendPreHook_invariant.
  - now apply prependPostHook_invariant.
  - now apply appendPostHook_invariant.
Qed.

End HookMethodProperties.

Section AttachmentProperties.
Context {W : Type}.
Variable growCap : nat -> nat -> nat.
Implicit Types (hook a b : PhaseHook W) (hp : Mem.heap W * Mem.Phase W).
Local Open Scope go_scope.

(** The fields a method does not assign are the ones it was given. *)
Lemma prependPreHook_fields hp hook :
  Mem.Name (snd (Mem.prependPreHook growCap hp hook)) = Mem.Name (snd hp)
  /\ Mem.execute (snd (Mem.prependPreHook growCap hp hook)) = Mem.execute (snd hp)
  /\ Mem.postHooks (snd (Mem.prependPreHook growCap hp hook)) = Mem.postHooks (snd hp).
Proof.
  unfold Mem.prependPreHook.
  now destruct (Mem.prependHook growCap (fst hp) (Mem.preHooks (snd hp)) hook).
Qed.

Lemma appendPreHook_fields hp hook :
  Mem.Name (snd (Mem.appendPreHook growCap hp hook)) = Mem.Name (snd hp)
  /\ Mem.execute (snd (Mem.appendPreHook growCap hp hook)) = Mem.execute (snd hp)
  /\ Mem.postHooks (snd (Mem.appendPreHook growCap hp hook)) = Mem.postHooks (snd hp).
Proof.
  unfold Mem.appendPreHook.
  now destruct (Mem.appendHook growCap (fst hp) (Mem.preHooks (snd hp)) hook).
Qed.

Lemma prependPostHook_fields hp hook :
  Mem.Name (snd (Mem.prependPostHook growCap hp hook)) = Mem.Name (snd hp)
  /\ Mem.execute (snd (Mem.prependPostHook growCap hp hook)) = Mem.execute (snd hp)
  /\ Mem.preHooks (snd (Mem.prependPostHook growCap hp hook)) = Mem.preHooks (snd hp).
Proof.
  unfold Mem.prependPostHook.
  now destruct (Mem.prependHook growCap (fst hp) (Mem.postHooks (snd hp)) hook).
Qed.

Lemma appendPostHook_fields hp hook :
  Mem.Name (snd (Mem.appendPostHook growCap hp hook)) = Mem.Name (snd hp)
  /\ Mem.execute (snd (Mem.appendPostHook growCap hp hook)) = Mem.execute (snd hp)
  /\ Mem.preHooks (snd (Mem.appendPostHook growCap hp hook)) = Mem.preHooks (snd hp).
Proof.
  unfold Mem.appendPostHook.
  now destruct (Mem.appendHook growCap (fst hp) (Mem.postHooks (snd hp)) hook).
Qed.

(** C10 (amended): on a Phase whose chains are valid slices, each of the
    four hook-attachment methods gives its target chain the elements that
    prependHook or appendHook prescribe, and leaves the Name, the execute
    function and the slice header of the other chain as they were.
    prependPreHook and prependPostHook also leave the elements of the other
    chain as they were; appendPreHook and appendPostHook do so when the two
    chains share no backing array.  Every Phase built from the zero Phase by
    the four methods has valid chains that share no backing array. *)
Theorem hook_attachment_changes_target_chain_only hp hook :
  wellFormed hp ->
  (preHooks (Mem.view (Mem.prependPreHook growCap hp hook))
   = prependHook (preHooks (Mem.view hp)) hook
   /\ Name (Mem.view (Mem.prependPreHook growCap hp hook)) = Name (Mem.view hp)
   /\ execute (Mem.view (Mem.prependPreHook growCap hp hook)) = execute (Mem.view hp)
   /\ Mem.postHooks (snd (Mem.prependPreHook growCap hp hook)) = Mem.postHooks (snd hp)
   /\ postHooks (Mem.view (Mem.prependPreHook growCap hp hook))
      = postHooks (Mem.view hp))
  /\ (preHooks (Mem.view (Mem.appendPreHook growCap hp hook))
      = appendHook (preHooks (Mem.view hp)) hook
      /\ Name (Mem.view (Mem.appendPreHook growCap hp hook)) = Name (Mem.view hp)
      /\ execute (Mem.view (Mem.appendPreHook growCap hp hook)) = execute (Mem.view hp)
      /\ Mem.postHooks (snd (Mem.appendPreHook growCap hp hook)) = Mem.postHooks (snd hp)
      /\ (separate hp ->
          postHooks (Mem.view (Mem.appendPreHook growCap hp hook))
          = postHooks (Mem.view hp)))
  /\ (postHooks (Mem.view (Mem.prependPostHook growCap hp hook))
      = prependHook (postHooks (Mem.view hp)) hook
      /\ Name (Mem.view (Mem.prependPostHook growCap hp hook)) = Name (Mem.view hp)
      /\ execute (Mem.view (Mem.prependPostHook growCap hp hook)) = execute (Mem.view hp)
      /\ Mem.preHooks (snd (Mem.prependPostHook growCap hp hook)) = Mem.preHooks (snd hp)
      /\ preHooks (Mem.view (Mem.prependPostHook growCap hp hook))
         = preHooks (Mem.view hp))
  /\ (postHooks (Mem.view (Mem.appendPostHook growCap hp hook))
      = appendHook (postHooks (Mem.view hp)) hook
      /\ Name (Mem.view (Mem.appendPostHook growCap hp hook)) = Name (Mem.view hp)
      /\ execute (Mem.view (Mem.appendPostHook growCap hp hook)) = execute (Mem.view hp)
      /\ Mem.preHooks (snd (Mem.appendPostHook growCap hp hook)) = Mem.preHooks (snd hp)
      /\ (separate hp ->
          preHooks (Mem.view (Mem.appendPostHook growCap hp hook))
          = preHooks (Mem.view hp)))
  /\ (forall ops : list (attachOp W),
        wellFormed (buildPhase growCap ops) /\ separate (buildPhase growCap ops)).
Proof.
  intros Hwf.
  destruct (prependPreHook_fields hp hook) as (N1 & X1 & F1).
  destruct (appendPreHook_fields hp hook) as (N2 & X2 & F2).
  destruct (prependPostHook_fields hp hook) as (N3 & X3 & F3).
  destruct (appendPostHook_fields hp hook) as (N4 & X4 & F4).
  split; [|split; [|split; [|split]]].
  - rewrite (prependPreHook_contents growCap hp hook Hwf). repeat split. exact F1.
  - split; [exact (appendPreHook_target growCap hp hook Hwf)|].
    split; [exact N2|]. split; [exact X2|]. split; [exact F2|].
    intros Hsep. exact (appendPreHook_frame growCap hp hook Hwf Hsep).
  - rewrite (prependPostHook_contents growCap hp hook Hwf). repeat split. exact F3.
  - split; [exact (appendPostHook_target growCap hp hook Hwf)|].
    split; [exact N4|]. split; [exact X4|]. split; [exact F4|].
    intros Hsep. exact (appendPostHook_frame growCap hp hook Hwf Hsep).
  - intros ops. apply buildPhase_invariant.
Qed.

(** X11: on a Phase whose chains are valid slices that share no backing
    array, a prepend and an append on the same chain, and any two
    attachments to different chains, leave the same contents whichever is
    called first. *)
Theorem hook_attachments_commute hp a b :
  wellFormed hp -> separate hp ->
  Mem.view (Mem.prependPreHook growCap (Mem.appendPreHook growCap hp a) b)
  = Mem.view (Mem.appendPreHook growCap (Mem.prependPreHook growCap hp b) a)
  /\ Mem.view (Mem.prependPostHook growCap (Mem.appendPostHook growCap hp a) b)
     = Mem.view (Mem.appendPostHook growCap (Mem.prependPostHook growCap hp b) a)
  /\ Mem.view (Mem.prependPreHook growCap (Mem.prependPostHook growCap hp a) b)
     = Mem.view (Mem.prependPostHook growCap (Mem.prependPreHook growCap hp b) a)
  /\ Mem.view (Mem.prependPreHook growCap (Mem.appendPostHook growCap hp a) b)
     = Mem.view (Mem.appendPostHook growCap (Mem.prependPreHook growCap hp b) a)
  /\ Mem.view (Mem.appendPreHook growCap (Mem.prependPostHook growCap hp a) b)
     = Mem.view (Mem.prependPostHook growCap (Mem.appendPreHook growCap hp b) a)
  /\ Mem.view (Mem.appendPreHook growCap (Mem.appendPostHook growCap hp a) b)
     = Mem.view (Mem.appendPostHook growCap (Mem.appendPreHook growCap hp b) a).
Proof.
  intros Hwf Hsep.
  destruct (appendPreHook_invariant growCap hp a Hwf Hsep) as (W1 & S1).
  destruct (appendPostHook_invariant growCap hp a Hwf Hsep) as (W2 & S2).
  destruct (prependPostHook_invariant growCap hp a Hwf) as (W3 & S3).
  destruct (prependPreHook_invariant growCap hp b Hwf) as (W4 & S4).
  destruct (prependPostHook_invariant growCap hp b Hwf) as (W5 & S5).
  destruct (appendPreHook_invariant growCap hp b Hwf Hsep) as (W6 & S6).
  repeat split;
    repeat first
      [ rewrite prependPreHook_contents by assumption
      | rewrite prependPostHook_contents by assumption
      | rewrite appendPreHook_contents by assumption
      | rewrite appendPostHook_contents by assumption ];
    unfold prependPreHook, prependPostHook, withPreHooks, withPostHooks,
      prependHook, appendHook;
    cbn [Name preHooks execute postHooks];
    rewrite ?app_assoc; reflexivity.
Qed.

(** X13: on a Phase whose chains are valid slices that share no backing
    array, running the Phase after appendPostHook(hook) is running the Phase
    as it was and then, when it returns a nil error, calling hook on its
    value; an error of hook is reported with the nil value, and an error or
    a panic of the Phase as it was is the result, hook not being called. *)
Theorem run_appendPostHook hp hook value (m : machine W) :
  wellFormed hp -> separate hp ->
  run (Mem.view (Mem.appendPostHook growCap hp hook)) value m =
    ('(value1, err) <- run (Mem.view hp) value ;;
     match err with
     | Some _ => ret (value1, err)
     | None =>
         '(value2, err2) <- call HookCalled hook value1 ;;
         match err2 with
         | Some _ => ret (handleError (Mem.view hp) err2)
         | None => ret (value2, None)
         end
     end) m.
Proof.
  intros Hwf Hsep.
  rewrite (appendPostHook_contents growCap hp hook Hwf Hsep).
  apply run_with_appended_postHook.
Qed.

End AttachmentProperties.

(* ================================================================== *)
(** ** The attachment methods, at the fixtures *)
(* ================================================================== *)

(** C10, as stated, fails: when the two chains are slices over one backing
    array, appendPostHook writes its hook into the cell that holds the
    pre-hook, and the pre-hook chain reads the new hook. *)
Lemma appendPostHook_overwrites_shared_preHook :
  wellFormed (Mem.appendPreHook doubleCap (sharedPhase (W := unit))
                (Some (constHook 1)))
  /\ preHooks (Mem.view (Mem.appendPreHook doubleCap (sharedPhase (W := unit))
                          (Some (constHook 1))))
     = [Some (constHook 1)]
  /\ preHooks (Mem.view (Mem.appendPostHook doubleCap
                          (Mem.appendPreHook doubleCap (sharedPhase (W := unit))
                             (Some (constHook 1)))
                          (Some (constHook 2))))
     = [Some (constHook 2)]
  /\ preHooks (Mem.view (Mem.appendPostHook doubleCap
                          (Mem.appendPreHook doubleCap (sharedPhase (W := unit))
                             (Some (constHook 1)))
                          (Some (constHook 2))))
     <> preHooks (Mem.view (Mem.appendPreHook doubleCap (sharedPhase (W := unit))
                             (Some (constHook 1)))).
Proof.
  split; [unfold wellFormed, validSlice; simpl; lia|].
  split; [reflexivity|]. split; [reflexivity|].
  change ([Some (constHook (W := unit) 2)] <> [Some (constHook (W := unit) 1)]).
  intros E. injection E as E.
  apply (f_equal (fun f => f VNil tt)) in E. discriminate E.
Qed.

(** Two chains in arrays of their own, each with a spare cell: appendPostHook
    writes in place and the pre-hook chain keeps its hook. *)
Lemma hook_attachment_changes_target_chain_only_witness :
  wellFormed (roomyPhase (W := unit))
  /\ separate (roomyPhase (W := unit))
  /\ postHooks (Mem.view (Mem.appendPostHook doubleCap (roomyPhase (W := unit))
                           (Some (constHook 3))))
     = appendHook (postHooks (Mem.view roomyPhase)) (Some (constHook 3))
  /\ preHooks (Mem.view (Mem.appendPostHook doubleCap (roomyPhase (W := unit))
                          (Some (constHook 3))))
     = preHooks (Mem.view roomyPhase).
Proof.
  assert (Hwf : wellFormed (roomyPhase (W := unit)))
    by (unfold wellFormed, validSlice; simpl; lia).
  assert (Hsep : separate (roomyPhase (W := unit)))
    by (unfold separate, disjoint; simpl; lia).
  split; [exact Hwf|]. split; [exact Hsep|].
  destruct (hook_attachment_changes_target_chain_only doubleCap roomyPhase
              (Some (constHook 3)) Hwf)
    as (_ & _ & _ & (Htarget & _ & _ & _ & Hother) & _).
  split; [exact Htarget | exact (Hother Hsep)].
Defined.

Lemma hook_attachments_commute_witness :
  wellFormed (roomyPhase (W := unit))
  /\ separate (roomyPhase (W := unit))
  /\ Mem.view (Mem.appendPreHook doubleCap
                 (Mem.appendPostHook doubleCap (roomyPhase (W := unit))
                    (Some (constHook 3)))
                 (Some (constHook 4)))
     = Mem.view (Mem.appendPostHook doubleCap
                   (Mem.appendPreHook doubleCap (roomyPhase (W := unit))
                      (Some (constHook 4)))
                   (Some (constHook 3))).
Proof.
  assert (Hwf : wellFormed (roomyPhase (W := unit)))
    by (unfold wellFormed, validSlice; simpl; lia).
  assert (Hsep : separate (roomyPhase (W := unit)))
    by (unfold separate, disjoint; simpl; lia).
  split; [exact Hwf|]. split; [exact Hsep|].
  destruct (hook_attachments_commute doubleCap roomyPhase
              (Some (constHook 3)) (Some (constHook 4)) Hwf Hsep)
    as (_ & _ & _ & _ & _ & H).
  exact H.
Defined.

Lemma run_appendPostHook_witness :
  wellFormed (roomyPhase (W := unit))
  /\ separate (roomyPhase (W := unit))
  /\ run (Mem.view (Mem.appendPostHook doubleCap (roomyPhase (W := unit))
                      (Some (constHook 3)))) (VInt 5) (start tt)
     = bind (run (Mem.view (roomyPhase (W := unit))) (VInt 5))
         (fun r =>
            match r with
            | (value1, err) =>
                match err with
                | Some _ => ret (value1, err)
                | None =>
                    bind (call HookCalled (Some (constHook 3)) value1)
                      (fun r2 =>
                         match r2 with
                         | (value2, err2) =>
                             match err2 with
                             | Some _ =>
                                 ret (handleError (Mem.view (roomyPhase (W := unit)))
                                        err2)
                             | None => ret (value2, None)
                             end
                         end)
                end
            end) (start tt).
Proof.
  assert (Hwf : wellFormed (roomyPhase (W := unit)))
    by (unfold wellFormed, validSlice; simpl; lia).
  assert (Hsep : separate (roomyPhase (W := unit)))
    by (unfold separate, disjoint; simpl; lia).
  split; [exact Hwf|]. split; [exact Hsep|].
  exact (run_appendPostHook doubleCap roomyPhase (Some (constHook 3)) (VInt 5)
           (start tt) Hwf Hsep).
Defined.

(** TestAddPreHooks: on [Phase{}], append hooks[1], prepend hooks[0], append
    hooks[2]; the chain then holds them in the order 0, 1, 2. *)
Example TestAddPreHooks :
  preHooks
    (Mem.view
       (Mem.appendPreHook doubleCap
          (Mem.prependPreHook doubleCap
             (Mem.appendPreHook doubleCap (Mem.zero (W := unit))
                (Some (constHook 1)))
             (Some (constHook 0)))
          (Some (constHook 2))))
  = [Some (constHook 0); Some (constHook 1); Some (constHook 2)].
Proof. reflexivity. Qed.

(** TestAddPostHooks: the same on the post-hook chain. *)
Example TestAddPostHooks :
  postHooks
    (Mem.view
       (Mem.appendPostHook doubleCap
          (Mem.prependPostHook doubleCap
             (Mem.appendPostHook doubleCap (Mem.zero (W := unit))
                (Some (constHook 1)))
             (Some (constHook 0)))
          (Some (constHook 2))))
  = [Some (constHook 0); Some (constHook 1); Some (constHook 2)].
Proof. reflexivity. Qed.
